(** * Neochess server: the socket.io session core of [server.js]

    A shallow embedding of [neochess-server/src/server.js]: the server
    memory (the module-level [let] registries), the persistence helpers
    ([createGame], [getGame], [updateGame]), the shared finalize path
    [gameOver], the periodic callbacks registered with [setInterval], and
    the socket event handlers.

    Conventions of the embedding.
    - A JavaScript object used as a dictionary is a [gmap] keyed by the
      property name; [timers[username+gameId]] is keyed by the string the
      concatenation evaluates to (with [null] and [undefined] printed as
      JavaScript prints them).
    - Handlers are written in a small state, output and exception monad:
      an exception keeps every mutation made before it, as in JavaScript.
    - Every [await] is followed to its continuation at once: a handler or
      a callback runs to completion before the next one starts.
    - [setInterval] allocates a handle and records the closure (as data,
      together with the variables it captured); [fire] runs one period of
      a handle that has not been cleared.
    - Informational logging ([logger.log], the ascii dump of the board)
      touches no server state and is left out; [console.log(error)] of the
      catch clauses is recorded.
    - The rules library chess.js, the wall clock, [Math.random()], the
      generated usernames and the ids the store hands out are inputs.
    - Game ids are well-formed ObjectId strings, and the store gives back
      the documents as they were written.
    - The [updatedShapes] relay and the HTTP routes touch none of the
      state below and are left out. *)

From Stdlib Require Import ZArith String List Bool Lia.
From stdpp Require Import base option list gmap strings.

Local Open Scope string_scope.
Local Open Scope Z_scope.

(** ** JavaScript values *)

(** A value that is a string, [null] or [undefined] (usernames, player
    slots, result fields). *)
Inductive jsval : Type :=
| JStr (s : string)
| JNull
| JUndef.

#[global] Instance jsval_eq_dec : EqDecision jsval.
Proof. solve_decision. Defined.

(** [String(v)], as used by [v + gameId]. *)
Definition to_str (v : jsval) : string :=
  match v with
  | JStr s => s
  | JNull => "null"
  | JUndef => "undefined"
  end.

(** Truthiness: [if (v)], [v && ...], [v ? a : b]. *)
Definition truthy (v : jsval) : bool :=
  match v with
  | JStr s => negb (String.eqb s "")
  | JNull => false
  | JUndef => false
  end.

(** [a === b]. *)
Definition strict_eq (a b : jsval) : bool := bool_decide (a = b).

(** A value read where a number is expected: [Some z] is the number [z],
    [None] is what is not a number ([undefined] from a missing table
    entry, and the [NaN] arithmetic makes of it). *)
Definition jsnum : Type := option Z.

(** [Math.max(lo, t)]. *)
Definition js_max (lo : Z) (t : jsnum) : jsnum :=
  match t with
  | Some z => Some (Z.max lo z)
  | None => None
  end.

(** [t - 1]. *)
Definition js_pred (t : jsnum) : jsnum :=
  match t with
  | Some z => Some (z - 1)
  | None => None
  end.

(** [t <= hi]; a comparison with [NaN] is false. *)
Definition js_le (t : jsnum) (hi : Z) : bool :=
  match t with
  | Some z => Z.leb z hi
  | None => false
  end.

(** [users[socket.id]], [sockets[username]]: a property read. *)
Definition prop (m : gmap string string) (k : string) : jsval :=
  match m !! k with
  | Some s => JStr s
  | None => JUndef
  end.


(** ** Data model *)

(** A move as the client sends it, and a position as chess.js prints
    it. *)
Definition Move : Type := string.

(** [game.players.white], [game.players.black]. *)
Record Player : Type := mkPlayer {
  p_username : jsval;
  p_time : jsnum
}.

(** The game document. The document's [_id] is the key it is stored
    under. [timeControl.minutes] and [timeControl.increment] are written
    once by [newGame] and never read by the server; only
    [timeControl.string] is kept. *)
Record Game : Type := mkGame {
  host : jsval;
  guest : jsval;
  white : Player;
  black : Player;
  timeControl : string;
  fen : string;
  joinable : bool;
  started : bool;
  finished : bool;
  lastMove : option Move;
  pgn : string;
  moves : list string;
  result_description : jsval;
  result_winner : jsval
}.

(** The fields of a [$set] update. *)
Inductive field : Type :=
| state_finished (b : bool)
| state_joinable (b : bool)
| state_started (b : bool)
| state_fen (f : string)
| state_lastMove (m : Move)
| history_pgn (p : string)
| history_moves (ms : list string)
| result_description_f (v : jsval)
| result_winner_f (v : jsval)
| players_white_time (t : jsnum)
| players_black_time (t : jsnum)
| players_white_username (v : jsval)
| players_black_username (v : jsval)
| guest_f (v : jsval).

Definition set_field (f : field) (g : Game) : Game :=
  match f with
  | state_finished b =>
      mkGame (host g) (guest g) (white g) (black g) (timeControl g) (fen g)
        (joinable g) (started g) b (lastMove g) (pgn g) (moves g)
        (result_description g) (result_winner g)
  | state_joinable b =>
      mkGame (host g) (guest g) (white g) (black g) (timeControl g) (fen g)
        b (started g) (finished g) (lastMove g) (pgn g) (moves g)
        (result_description g) (result_winner g)
  | state_started b =>
      mkGame (host g) (guest g) (white g) (black g) (timeControl g) (fen g)
        (joinable g) b (finished g) (lastMove g) (pgn g) (moves g)
        (result_description g) (result_winner g)
  | state_fen f' =>
      mkGame (host g) (guest g) (white g) (black g) (timeControl g) f'
        (joinable g) (started g) (finished g) (lastMove g) (pgn g) (moves g)
        (result_description g) (result_winner g)
  | state_lastMove m =>
      mkGame (host g) (guest g) (white g) (black g) (timeControl g) (fen g)
        (joinable g) (started g) (finished g) (Some m) (pgn g) (moves g)
        (result_description g) (result_winner g)
  | history_pgn p =>
      mkGame (host g) (guest g) (white g) (black g) (timeControl g) (fen g)
        (joinable g) (started g) (finished g) (lastMove g) p (moves g)
        (result_description g) (result_winner g)
  | history_moves ms =>
      mkGame (host g) (guest g) (white g) (black g) (timeControl g) (fen g)
        (joinable g) (started g) (finished g) (lastMove g) (pgn g) ms
        (result_description g) (result_winner g)
  | result_description_f v =>
      mkGame (host g) (guest g) (white g) (black g) (timeControl g) (fen g)
        (joinable g) (started g) (finished g) (lastMove g) (pgn g) (moves g)
        v (result_winner g)
  | result_winner_f v =>
      mkGame (host g) (guest g) (white g) (black g) (timeControl g) (fen g)
        (joinable g) (started g) (finished g) (lastMove g) (pgn g) (moves g)
        (result_description g) v
  | players_white_time t =>
      mkGame (host g) (guest g) (mkPlayer (p_username (white g)) t) (black g)
        (timeControl g) (fen g) (joinable g) (started g) (finished g)
        (lastMove g) (pgn g) (moves g) (result_description g) (result_winner g)
  | players_black_time t =>
      mkGame (host g) (guest g) (white g) (mkPlayer (p_username (black g)) t)
        (timeControl g) (fen g) (joinable g) (started g) (finished g)
        (lastMove g) (pgn g) (moves g) (result_description g) (result_winner g)
  | players_white_username v =>
      mkGame (host g) (guest g) (mkPlayer v (p_time (white g))) (black g)
        (timeControl g) (fen g) (joinable g) (started g) (finished g)
        (lastMove g) (pgn g) (moves g) (result_description g) (result_winner g)
  | players_black_username v =>
      mkGame (host g) (guest g) (white g) (mkPlayer v (p_time (black g)))
        (timeControl g) (fen g) (joinable g) (started g) (finished g)
        (lastMove g) (pgn g) (moves g) (result_description g) (result_winner g)
  | guest_f v =>
      mkGame (host g) v (white g) (black g) (timeControl g) (fen g)
        (joinable g) (started g) (finished g) (lastMove g) (pgn g) (moves g)
        (result_description g) (result_winner g)
  end.

(** [{$set: update}]: a field-level merge, in the order of the literal. *)
Definition apply_update (upd : list field) (g : Game) : Game :=
  fold_left (fun g' f => set_field f g') upd g.

(** The payload of a [move] event. *)
Record MoveData : Type := mkMoveData {
  md_username : string;
  md_gameId : string;
  md_fen : string;
  md_move : Move
}.

(** [{result, winner}]. *)
Record ResultData : Type := mkResultData {
  rd_result : jsval;
  rd_winner : jsval
}.

(** An element of [joinableGames] or [watchableGames]. *)
Record LobbyEntry : Type := mkLobbyEntry {
  le_host : jsval;
  le_timeControl : string;
  le_gameId : string
}.

(** [timers[username+gameId]]: the interval handle, or [null], and the
    remaining seconds. *)
Record Timer : Type := mkTimer {
  loop : option nat;
  time : jsnum
}.

(** [timesync[gameId]]. [lastTimeSync] maps a username to the instant (in
    milliseconds) of its last acknowledgment. *)
Record TimeSync : Type := mkTimeSync {
  mainLoop : nat;
  lastTimeSync : gmap string Z;
  ackLoop : nat
}.

(** The closures handed to [setInterval], with what they capture. *)
Inductive callback : Type :=
| host_mainLoop (socket : string) (gameId : string) (username : jsval)
| host_ackLoop (gameId : string) (username : jsval)
| game_mainLoop (gameId : string) (whiteUsername blackUsername : jsval)
| game_ackLoop (gameId : string) (whiteUsername blackUsername : jsval)
| decrement_loop (gameId : string) (username : string) (opponent : jsval).

(** What a handler can throw. *)
Inductive exn : Type :=
| TypeError (reading : string)
| StoreError (what : string)
| ChessError.

(** Events sent to clients. *)
Inductive event : Type :=
| ev_username (username : string)
| ev_gamesList (games watchable : list LobbyEntry)
| ev_gameCreated (game : Game)
| ev_gameCreated_error
| ev_gameJoined (game : Game) (watcher : bool)
| ev_gameJoined_error
| ev_updateGame (game : option Game)
| ev_moved (movedata : option MoveData)
| ev_gameOver (resultData : ResultData)
| ev_timesync (gameId : string) (remaining : list (string * jsnum)).

(** What a run leaves behind for an observer, in order. [Called_gameOver]
    marks each entry into [gameOver]. *)
Inductive effect : Type :=
| IoEmit (room : string) (e : event)
| SocketEmit (socket : string) (e : event)
| ConsoleLog (e : exn)
| DbInsert (gameId : string) (g : Game)
| DbUpdate (gameId : string) (upd : list field)
| SetInterval (h : nat) (cb : callback)
| ClearInterval (h : nat)
| Called_gameOver (gameId : string) (player1 player2 : jsval)
    (resultData : ResultData)
| UnhandledRejection (e : exn)
| UncaughtException (e : exn).

(** ** Server memory *)

(** The module-level registries of [server.js], the [games] collection
    ([None] until [mongo.connect()] has resolved), the intervals that are
    scheduled, and socket.io's room membership. *)
Record World : Type := mkWorld {
  gameCollection : option (gmap string Game);
  users : gmap string string;
  sockets : gmap string string;
  timers : gmap string Timer;
  timesync : gmap string TimeSync;
  currentGameId : gmap string string;
  joinableGames : list LobbyEntry;
  watchableGames : list LobbyEntry;
  playerReceivedLastmove : gmap string bool;
  lastMoveFromGame : gmap string MoveData;
  intervals : gmap nat callback;
  next_handle : nat;
  rooms : gset (string * string)
}.

Definition set_gameCollection (v : option (gmap string Game)) (w : World) : World :=
  mkWorld v (users w) (sockets w) (timers w) (timesync w)
    (currentGameId w) (joinableGames w) (watchableGames w)
    (playerReceivedLastmove w) (lastMoveFromGame w) (intervals w)
    (next_handle w) (rooms w).

Definition set_users (v : gmap string string) (w : World) : World :=
  mkWorld (gameCollection w) v (sockets w) (timers w) (timesync w)
    (currentGameId w) (joinableGames w) (watchableGames w)
    (playerReceivedLastmove w) (lastMoveFromGame w) (intervals w)
    (next_handle w) (rooms w).

Definition set_sockets (v : gmap string string) (w : World) : World :=
  mkWorld (gameCollection w) (users w) v (timers w) (timesync w)
    (currentGameId w) (joinableGames w) (watchableGames w)
    (playerReceivedLastmove w) (lastMoveFromGame w) (intervals w)
    (next_handle w) (rooms w).

Definition set_timers (v : gmap string Timer) (w : World) : World :=
  mkWorld (gameCollection w) (users w) (sockets w) v (timesync w)
    (currentGameId w) (joinableGames w) (watchableGames w)
    (playerReceivedLastmove w) (lastMoveFromGame w) (intervals w)
    (next_handle w) (rooms w).

Definition set_timesync (v : gmap string TimeSync) (w : World) : World :=
  mkWorld (gameCollection w) (users w) (sockets w) (timers w) v
    (currentGameId w) (joinableGames w) (watchableGames w)
    (playerReceivedLastmove w) (lastMoveFromGame w) (intervals w)
    (next_handle w) (rooms w).

Definition set_currentGameId (v : gmap string string) (w : World) : World :=
  mkWorld (gameCollection w) (users w) (sockets w) (timers w) (timesync w)
    v (joinableGames w) (watchableGames w)
    (playerReceivedLastmove w) (lastMoveFromGame w) (intervals w)
    (next_handle w) (rooms w).

Definition set_joinableGames (v : list LobbyEntry) (w : World) : World :=
  mkWorld (gameCollection w) (users w) (sockets w) (timers w) (timesync w)
    (currentGameId w) v (watchableGames w)
    (playerReceivedLastmove w) (lastMoveFromGame w) (intervals w)
    (next_handle w) (rooms w).

Definition set_watchableGames (v : list LobbyEntry) (w : World) : World :=
  mkWorld (gameCollection w) (users w) (sockets w) (timers w) (timesync w)
    (currentGameId w) (joinableGames w) v
    (playerReceivedLastmove w) (lastMoveFromGame w) (intervals w)
    (next_handle w) (rooms w).

Definition set_playerReceivedLastmove (v : gmap string bool) (w : World) : World :=
  mkWorld (gameCollection w) (users w) (sockets w) (timers w) (timesync w)
    (currentGameId w) (joinableGames w) (watchableGames w)
    v (lastMoveFromGame w) (intervals w)
    (next_handle w) (rooms w).

Definition set_lastMoveFromGame (v : gmap string MoveData) (w : World) : World :=
  mkWorld (gameCollection w) (users w) (sockets w) (timers w) (timesync w)
    (currentGameId w) (joinableGames w) (watchableGames w)
    (playerReceivedLastmove w) v (intervals w)
    (next_handle w) (rooms w).

Definition set_intervals (v : gmap nat callback) (n : nat) (w : World) : World :=
  mkWorld (gameCollection w) (users w) (sockets w) (timers w) (timesync w)
    (currentGameId w) (joinableGames w) (watchableGames w)
    (playerReceivedLastmove w) (lastMoveFromGame w) v n (rooms w).

Definition set_rooms (v : gset (string * string)) (w : World) : World :=
  mkWorld (gameCollection w) (users w) (sockets w) (timers w) (timesync w)
    (currentGameId w) (joinableGames w) (watchableGames w)
    (playerReceivedLastmove w) (lastMoveFromGame w) (intervals w)
    (next_handle w) v.

(** The memory of a process that has just started, before the connection
    to the store. *)
Definition boot : World :=
  mkWorld None ∅ ∅ ∅ ∅ ∅ [] [] ∅ ∅ ∅ 0%nat ∅.

(** ** The handler monad *)

Inductive outcome (A : Type) : Type :=
| Ret (a : A)
| Throw (e : exn).
Arguments Ret {A} a.
Arguments Throw {A} e.

(** One run: how it ended, the memory it left, what it emitted. *)
Record Run (A : Type) : Type := mkRun {
  ended : outcome A;
  final : World;
  output : list effect
}.
Arguments mkRun {A} ended final output.
Arguments ended {A} r.
Arguments final {A} r.
Arguments output {A} r.

Definition M (A : Type) : Type := World -> Run A.

#[global] Instance M_ret : MRet M := fun A a w => mkRun (Ret a) w [].

#[global] Instance M_bind : MBind M := fun A B k m w =>
  match m w with
  | mkRun (Ret a) w1 o1 =>
      match k a w1 with
      | mkRun e w2 o2 => mkRun e w2 (o1 ++ o2)
      end
  | mkRun (Throw e) w1 o1 => mkRun (Throw e) w1 o1
  end.

Definition throw {A : Type} (e : exn) : M A := fun w => mkRun (Throw e) w [].

Definition get : M World := fun w => mkRun (Ret w) w [].

Definition modify (f : World -> World) : M unit := fun w => mkRun (Ret ()) (f w) [].

Definition tell (e : effect) : M unit := fun w => mkRun (Ret ()) w [e].

(** Reading a property of [o]: a [TypeError] when [o] is [null] or
    [undefined]. *)
Definition deref {A : Type} (reading : string) (o : option A) : M A :=
  match o with
  | Some a => mret a
  | None => throw (TypeError reading)
  end.

(** [try { body } catch (error) { handler(error) }]. *)
Definition try_catch (body : M unit) (handler : exn -> M unit) : M unit := fun w =>
  match body w with
  | mkRun (Ret a) w1 o1 => mkRun (Ret a) w1 o1
  | mkRun (Throw e) w1 o1 =>
      match handler e w1 with
      | mkRun e' w2 o2 => mkRun e' w2 (o1 ++ o2)
      end
  end.

Definition when (b : bool) (m : M unit) : M unit := if b then m else mret ().


(** ** External collaborators *)

(** What the handlers read from a chess.js board. *)
Record Chess : Type := mkChess {
  c_fen : string;
  c_pgn : string;
  c_history : list string;
  game_over : bool;
  in_checkmate : bool;
  in_draw : bool;
  in_stalemate : bool;
  in_threefold_repetition : bool;
  insufficient_material : bool
}.

(** The rules library: [load_and_move pgn move] is the board after
    [new chessjs.Chess()], [load_pgn(pgn)] and [move(move)], or [None] when
    the library throws. *)
Class Rules : Type := { load_and_move : string -> Move -> option Chess }.

(** [new chessjs.Chess().fen()]. *)
Definition initial_fen : string :=
  "rnbqkbnr/pppppppp/8/8/8/8/PPPPPPPP/RNBQKBNR w KQkq - 0 1".

(** The table [seconds]. *)
Definition seconds (timeControl : string) : jsnum :=
  if String.eqb timeControl "1+0" then Some 60
  else if String.eqb timeControl "3+0" then Some (60 * 3)
  else if String.eqb timeControl "5+0" then Some (60 * 5)
  else if String.eqb timeControl "10+0" then Some (60 * 10)
  else if String.eqb timeControl "15+0" then Some (60 * 15)
  else if String.eqb timeControl "30+0" then Some (60 * 30)
  else None.

Definition TIMESYNC_TIMEOUT : Z := 180000.

(** ** Primitives *)

(** [username+gameId]. *)
Definition key (username : jsval) (gameId : string) : string :=
  to_str username +:+ gameId.

(** [username+socketId+gameId], the private room of a connection. *)
Definition userRoom (username socketId : jsval) (gameId : string) : string :=
  to_str username +:+ to_str socketId +:+ gameId.

Definition io_emit (room : string) (e : event) : M unit := tell (IoEmit room e).

Definition socket_emit (socket : string) (e : event) : M unit :=
  tell (SocketEmit socket e).

Definition socket_join (socket room : string) : M unit :=
  modify (fun w => set_rooms ({[ (socket, room) ]} ∪ rooms w) w).

Definition socket_leave (socket room : string) : M unit :=
  modify (fun w => set_rooms (rooms w ∖ {[ (socket, room) ]}) w).

Definition socket_leaveAll (socket : string) : M unit :=
  modify (fun w => set_rooms (filter (fun sr => sr.1 ≠ socket) (rooms w)) w).

Definition setInterval (cb : callback) : M nat := fun w =>
  mkRun (Ret (next_handle w))
    (set_intervals (<[next_handle w := cb]> (intervals w)) (S (next_handle w)) w)
    [SetInterval (next_handle w) cb].

Definition clearInterval (h : nat) : M unit := fun w =>
  mkRun (Ret ()) (set_intervals (delete h (intervals w)) (next_handle w) w)
    [ClearInterval h].

(** [timers[k]], read for one of its properties. *)
Definition timer_of (k : string) : M Timer :=
  w ← get; deref "timers[k]" (timers w !! k).

(** [if (timers[k].loop) { clearInterval(timers[k].loop);
    timers[k].loop = null; }] *)
Definition stop_loop (k : string) : M unit :=
  tm ← timer_of k;
  match loop tm with
  | Some h =>
      _ ← clearInterval h;
      modify (fun w => set_timers (<[k := mkTimer None (time tm)]> (timers w)) w)
  | None => mret ()
  end.

(** *** Persistence *)

Definition createGame (insertedId : string) (game : Game) : M string :=
  w ← get;
  match gameCollection w with
  | None => throw (TypeError "gameCollection.insertOne")
  | Some db =>
      match db !! insertedId with
      | Some _ => throw (StoreError "duplicate key")
      | None =>
          _ ← modify (set_gameCollection (Some (<[insertedId := game]> db)));
          _ ← tell (DbInsert insertedId game);
          mret insertedId
      end
  end.

Definition getGame (gameId : string) : M (option Game) :=
  w ← get;
  match gameCollection w with
  | None => throw (TypeError "gameCollection.findOne")
  | Some db => mret (db !! gameId)
  end.

Definition updateGame (gameId : string) (update : list field) : M (option Game) :=
  w ← get;
  match gameCollection w with
  | None => throw (TypeError "gameCollection.findOneAndUpdate")
  | Some db =>
      _ ← tell (DbUpdate gameId update);
      match db !! gameId with
      | Some g =>
          _ ← modify (set_gameCollection
                        (Some (<[gameId := apply_update update g]> db)));
          mret (Some (apply_update update g))
      | None => mret None
      end
  end.

(** *** The lobby broadcast *)

(** [for (let u in sockets) io.to(sockets[u]).emit('gamesList', ...)], the
    loop that [gameOver], the host's liveness check, [newGame] and
    [joinGame] each spell out. *)
Definition gamesList_for (u : jsval) (w : World) : event :=
  ev_gamesList (filter (fun g => le_host g ≠ u) (joinableGames w))
    (filter (fun g => le_host g ≠ u) (watchableGames w)).

Definition broadcast_gamesList : M unit := fun w =>
  mkRun (Ret ()) w
    (map (fun us => IoEmit us.2 (gamesList_for (JStr us.1) w))
       (map_to_list (sockets w))).

(** [xs.filter(g => g.gameId.toString() != gameId)] on both lists. *)
Definition drop_from_lobby (gameId : string) : M unit :=
  _ ← modify (fun w => set_joinableGames
                (filter (fun g => le_gameId g ≠ gameId) (joinableGames w)) w);
  modify (fun w => set_watchableGames
            (filter (fun g => le_gameId g ≠ gameId) (watchableGames w)) w).


(** ** [gameOver], the shared finalize path *)

Definition gameOver_body (gameId : string) (player1 player2 : jsval)
    (resultData : ResultData) : M unit :=
  g ← getGame gameId;
  game ← deref "game.players" g;
  let whiteUsername := p_username (white game) in
  let blackUsername := p_username (black game) in
  tw ← timer_of (key whiteUsername gameId);
  let tWhite := js_max 0 (time tw) in
  tb ← timer_of (key blackUsername gameId);
  let tBlack := js_max 0 (time tb) in
  if negb (finished game) then
    _ ← io_emit gameId (ev_gameOver resultData);
    _ ← when (truthy player1) (stop_loop (key player1 gameId));
    _ ← when (truthy player2) (stop_loop (key player2 gameId));
    w ← get;
    _ ← match timesync w !! gameId with
        | Some ts =>
            _ ← clearInterval (mainLoop ts);
            _ ← clearInterval (ackLoop ts);
            modify (fun w' => set_timesync (delete gameId (timesync w')) w')
        | None => mret ()
        end;
    g' ← updateGame gameId
           [state_finished true;
            result_description_f (rd_result resultData);
            result_winner_f (rd_winner resultData);
            players_white_time tWhite;
            players_black_time tBlack];
    _ ← drop_from_lobby gameId;
    _ ← broadcast_gamesList;
    io_emit gameId (ev_updateGame g')
  else mret ().

(** A call of [gameOver]: the entry is marked in the output, then the
    body runs. *)
Definition gameOver (gameId : string) (player1 player2 : jsval)
    (resultData : ResultData) : M unit :=
  _ ← tell (Called_gameOver gameId player1 player2 resultData);
  gameOver_body gameId player1 player2 resultData.

Definition gameTimeSync (gameId : string) (whiteUsername blackUsername : jsval) : M unit :=
  tw ← timer_of (key whiteUsername gameId);
  tb ← timer_of (key blackUsername gameId);
  io_emit gameId
    (ev_timesync gameId
       [(to_str whiteUsername, js_max 0 (time tw));
        (to_str blackUsername, js_max 0 (time tb))]).

Definition userTimeSync (username : string) (whiteUsername blackUsername : jsval) : M unit :=
  w ← get;
  let gameId := to_str (prop (currentGameId w) username) in
  tw ← timer_of (key whiteUsername gameId);
  tb ← timer_of (key blackUsername gameId);
  io_emit (userRoom (JStr username) (prop (sockets w) username) gameId)
    (ev_timesync gameId
       [(to_str whiteUsername, js_max 0 (time tw));
        (to_str blackUsername, js_max 0 (time tb))]).

(** ** Periodic callbacks *)

(** [mainLoop] of [newGame]: the host's own clock, every 500 ms. *)
Definition host_mainLoop_cb (socket gameId : string) (username : jsval) : M unit :=
  tm ← timer_of (key username gameId);
  socket_emit socket
    (ev_timesync gameId [(to_str username, js_max 0 (time tm))]).

(** [ackLoop] of [newGame]: the liveness check while the host waits. *)
Definition host_ackLoop_cb (now : Z) (gameId : string) (username : jsval) : M unit :=
  w ← get;
  match timesync w !! gameId with
  | None => mret ()
  | Some ts =>
      last ← deref "lastTimeSync.getTime" (lastTimeSync ts !! to_str username);
      if Z.abs (now - last) >? TIMESYNC_TIMEOUT then
        _ ← drop_from_lobby gameId;
        _ ← broadcast_gamesList;
        gameOver gameId JNull JNull (mkResultData (JStr "abandonment") JNull)
      else mret ()
  end.

(** [ackLoop] of [joinGame]: the liveness check of both seats. *)
Definition game_ackLoop_cb (now : Z) (gameId : string)
    (whiteUsername blackUsername : jsval) : M unit :=
  w ← get;
  ts ← deref "timesync[gameId].lastTimeSync" (timesync w !! gameId);
  let lastTimeSyncW := lastTimeSync ts !! to_str whiteUsername in
  let lastTimeSyncB := lastTimeSync ts !! to_str blackUsername in
  lastW ← deref "lastTimeSyncW.getTime" lastTimeSyncW;
  _ ← when (Z.abs (now - lastW) >? TIMESYNC_TIMEOUT)
        (gameOver gameId whiteUsername blackUsername
           (mkResultData (JStr "abandonment") blackUsername));
  lastB ← deref "lastTimeSyncB.getTime" lastTimeSyncB;
  when (Z.abs (now - lastB) >? TIMESYNC_TIMEOUT)
    (gameOver gameId whiteUsername blackUsername
       (mkResultData (JStr "abandonment") whiteUsername)).

(** The decrement loop that [move] starts for the opponent, every
    1000 ms. *)
Definition decrement_loop_cb (gameId username : string) (opponent : jsval) : M unit :=
  tm ← timer_of (key opponent gameId);
  let t := time tm in
  _ ← modify (fun w =>
        set_timers (<[key opponent gameId :=
                        mkTimer (loop tm) (js_max (-1) (js_pred t))]> (timers w)) w);
  tm' ← timer_of (key opponent gameId);
  if js_le (time tm') (-1) then
    gameOver gameId (JStr username) opponent
      (mkResultData (JStr "ontime") (JStr username))
  else mret ().

Definition run_callback (now : Z) (cb : callback) : M unit :=
  match cb with
  | host_mainLoop socket gameId username => host_mainLoop_cb socket gameId username
  | host_ackLoop gameId username => host_ackLoop_cb now gameId username
  | game_mainLoop gameId w b => gameTimeSync gameId w b
  | game_ackLoop gameId w b => game_ackLoop_cb now gameId w b
  | decrement_loop gameId username opponent => decrement_loop_cb gameId username opponent
  end.

(** The two [mainLoop] closures are plain functions; the others are
    [async], so what they throw is a rejected promise nobody awaits. *)
Definition is_async (cb : callback) : bool :=
  match cb with
  | host_mainLoop _ _ _ => false
  | game_mainLoop _ _ _ => false
  | _ => true
  end.

(** One period of the interval [h], if it has not been cleared. *)
Definition fire (now : Z) (h : nat) : M unit :=
  w ← get;
  match intervals w !! h with
  | None => mret ()
  | Some cb =>
      try_catch (run_callback now cb)
        (fun e => tell (if is_async cb then UnhandledRejection e
                        else UncaughtException e))
  end.


(** ** Socket event handlers *)

(** Every handler is [async (data) => { try { body } catch (error)
    { ... } }]; [socket] is the id of the connection the listener was
    registered on. *)

(** [console.log(error)], the whole catch clause of most handlers. *)
Definition log_error (error : exn) : M unit := tell (ConsoleLog error).

(** *** [username] *)

Definition username_body (socket : string) (data_username : jsval)
    (random_username : string) : M unit :=
  if negb (truthy data_username) then
    let username := random_username in
    _ ← socket_emit socket (ev_username username);
    _ ← modify (fun w => set_users (<[socket := username]> (users w)) w);
    modify (fun w => set_sockets (<[username := socket]> (sockets w)) w)
  else
    let username := to_str data_username in
    _ ← modify (fun w => set_users (<[socket := username]> (users w)) w);
    _ ← modify (fun w => set_sockets (<[username := socket]> (sockets w)) w);
    w ← get;
    if truthy (prop (currentGameId w) username) then
      let gameId := to_str (prop (currentGameId w) username) in
      _ ← socket_join socket gameId;
      _ ← socket_join socket (userRoom (JStr username) (JStr socket) gameId);
      g ← getGame gameId;
      game ← deref "game.state" g;
      _ ← when (finished game)
            (_ ← io_emit (userRoom (JStr username) (JStr socket) gameId)
                   (ev_gameOver (mkResultData (result_description game)
                                   (result_winner game)));
             userTimeSync username (p_username (white game))
               (p_username (black game)));
      w' ← get;
      match playerReceivedLastmove w' !! (username +:+ gameId) with
      | Some true => mret ()
      | _ =>
          let room := userRoom (JStr username) (prop (sockets w') username) gameId in
          _ ← io_emit room (ev_moved (lastMoveFromGame w' !! gameId));
          io_emit room (ev_updateGame (Some game))
      end
    else mret ().

Definition on_username (socket : string) (data_username : jsval)
    (random_username : string) : M unit :=
  try_catch (username_body socket data_username random_username) log_error.

(** *** [disconnect] *)

Definition on_disconnect (socket : string) : M unit :=
  try_catch
    (w ← get;
     let username := prop (users w) socket in
     _ ← modify (fun w => set_users (delete socket (users w)) w);
     _ ← modify (fun w => set_sockets (delete (to_str username) (sockets w)) w);
     socket_leaveAll socket)
    log_error.

(** *** [getGames] *)

Definition on_getGames (socket : string) : M unit :=
  try_catch
    (w ← get;
     let username := prop (users w) socket in
     socket_emit socket (gamesList_for username w))
    log_error.

(** [const previousGameId = currentGameId[username]; if (previousGameId)
    { socket.leave(...); socket.leave(...); }] *)
Definition leave_previous (socket : string) (username : jsval) : M unit :=
  w ← get;
  let previousGameId := prop (currentGameId w) (to_str username) in
  when (truthy previousGameId)
    (_ ← socket_leave socket (to_str previousGameId);
     socket_leave socket
       (userRoom username (prop (sockets w) (to_str username))
          (to_str previousGameId))).

(** *** [newGame] *)

(** [heads] is [Math.random() < 0.5], [insertedId] the id the store gives
    the document, [now] the reading of [new Date()]. *)
Definition newGame_body (socket : string) (data_timeControl : string)
    (heads : bool) (insertedId : string) (now : Z) : M unit :=
  w ← get;
  let username := prop (users w) socket in
  let game :=
    mkGame username JNull
      (mkPlayer (if heads then username else JNull) (seconds data_timeControl))
      (mkPlayer (if heads then JNull else username) (seconds data_timeControl))
      data_timeControl initial_fen true false false None "" [] JNull JNull in
  gameId ← createGame insertedId game;
  _ ← leave_previous socket username;
  _ ← socket_join socket gameId;
  _ ← socket_join socket (userRoom username (JStr socket) gameId);
  _ ← modify (fun w =>
        set_currentGameId (<[to_str username := gameId]> (currentGameId w)) w);
  _ ← io_emit gameId (ev_gameCreated game);
  _ ← modify (fun w =>
        set_timers (<[key username gameId :=
                        mkTimer None (seconds (timeControl game))]> (timers w)) w);
  let lastTimeSync : gmap string Z := {[ to_str username := now ]} in
  h_main ← setInterval (host_mainLoop socket gameId username);
  h_ack ← setInterval (host_ackLoop gameId username);
  _ ← modify (fun w =>
        set_timesync (<[gameId := mkTimeSync h_main lastTimeSync h_ack]>
                        (timesync w)) w);
  _ ← modify (fun w =>
        set_joinableGames
          (filter (fun g => le_host g ≠ username) (joinableGames w)) w);
  _ ← modify (fun w =>
        set_joinableGames
          (joinableGames w ++ [mkLobbyEntry username (timeControl game) gameId]) w);
  broadcast_gamesList.

Definition on_newGame (socket : string) (data_timeControl : string)
    (heads : bool) (insertedId : string) (now : Z) : M unit :=
  try_catch (newGame_body socket data_timeControl heads insertedId now)
    (fun error =>
       _ ← log_error error;
       socket_emit socket ev_gameCreated_error).

(** *** [joinGame] *)

(** The seat taken by a joiner who is not a watcher: the [if (!watcher)]
    block. It returns the updated document. *)
Definition take_seat (gameId : string) (username : jsval) (game : Game)
    (now : Z) : M Game :=
  let orientation_white := negb (truthy (p_username (white game))) in
  let update :=
    [if orientation_white then players_white_username username
     else players_black_username username;
     guest_f username;
     state_joinable false] in
  let opponent :=
    if orientation_white then p_username (black game)
    else p_username (white game) in
  g' ← updateGame gameId update;
  w ← get;
  _ ← io_emit (userRoom opponent (prop (sockets w) (to_str opponent)) gameId)
        (ev_updateGame g');
  game' ← deref "game.timeControl" g';
  _ ← modify (fun w =>
        set_timers (<[key username gameId :=
                        mkTimer None (seconds (timeControl game'))]> (timers w)) w);
  let whiteUsername := p_username (white game') in
  let blackUsername := p_username (black game') in
  w1 ← get;
  _ ← match timesync w1 !! gameId with
      | Some ts =>
          _ ← clearInterval (mainLoop ts);
          clearInterval (ackLoop ts)
      | None => mret ()
      end;
  ts ← deref "timesync[gameId].lastTimeSync" (timesync w1 !! gameId);
  let lastTimeSync' := <[to_str username := now]> (lastTimeSync ts) in
  h_main ← setInterval (game_mainLoop gameId whiteUsername blackUsername);
  h_ack ← setInterval (game_ackLoop gameId whiteUsername blackUsername);
  _ ← modify (fun w =>
        set_timesync (<[gameId := mkTimeSync h_main lastTimeSync' h_ack]>
                        (timesync w)) w);
  mret game'.

Definition is_watcher (game : Game) (username : jsval) : bool :=
  negb (joinable game) || finished game || strict_eq (host game) username.

(** The documents [newGame] writes always carry [players.*.time], so the
    ['time' in game.players.white] test of the finished branch takes its
    first arm. *)
Definition joinGame_body (socket : string) (gameId : string) (now : Z) : M unit :=
  w ← get;
  let username := prop (users w) socket in
  g ← getGame gameId;
  game0 ← deref "game.state" g;
  let watcher := is_watcher game0 username in
  game ← (if negb watcher then take_seat gameId username game0 now
          else mret game0);
  _ ← leave_previous socket username;
  _ ← socket_join socket gameId;
  _ ← socket_join socket (userRoom username (JStr socket) gameId);
  _ ← modify (fun w =>
        set_currentGameId (<[to_str username := gameId]> (currentGameId w)) w);
  _ ← io_emit socket (ev_gameJoined game watcher);
  _ ← modify (fun w =>
        set_joinableGames
          (filter (fun g => le_gameId g ≠ gameId) (joinableGames w)) w);
  w2 ← get;
  let alreadyWatchable :=
    existsb (fun g => String.eqb (le_gameId g) gameId) (watchableGames w2) in
  _ ← when (negb alreadyWatchable && negb (finished game))
        (modify (fun w =>
           set_watchableGames
             (watchableGames w ++
                [mkLobbyEntry
                   (JStr (to_str (p_username (white game)) +:+ " vs " +:+
                          to_str (p_username (black game))))
                   (timeControl game) gameId]) w));
  _ ← when (finished game)
        (_ ← io_emit (userRoom username (JStr socket) gameId)
               (ev_gameOver (mkResultData (result_description game)
                               (result_winner game)));
         w3 ← get;
         io_emit (userRoom username (prop (sockets w3) (to_str username)) gameId)
           (ev_timesync gameId
              [(to_str (p_username (white game)), p_time (white game));
               (to_str (p_username (black game)), p_time (black game))]));
  broadcast_gamesList.

Definition on_joinGame (socket : string) (gameId : string) (now : Z) : M unit :=
  try_catch (joinGame_body socket gameId now)
    (fun error =>
       _ ← log_error error;
       socket_emit socket ev_gameJoined_error).


(** *** [move] *)

(** [result] and [winner] as the handler computes them once
    [game_over()] holds. *)
Definition move_result (username : string) (c : Chess) : ResultData :=
  if in_checkmate c then mkResultData (JStr "checkmate") (JStr username)
  else if in_draw c then
    if in_stalemate c then mkResultData (JStr "draw.stalemate") JNull
    else if in_threefold_repetition c then
      mkResultData (JStr "draw.threefold_repetition") JNull
    else if insufficient_material c then
      mkResultData (JStr "draw.insufficient_material") JNull
    else mkResultData JUndef JNull
  else mkResultData JUndef JNull.

Definition move_body `{Rules} (movedata : MoveData) : M unit :=
  let username := md_username movedata in
  let gameId := md_gameId movedata in
  let move := md_move movedata in
  g ← getGame gameId;
  game0 ← deref "game.state" g;
  if finished game0 then mret ()
  else
    gameRepresentation ←
      match load_and_move (pgn game0) move with
      | Some c => mret c
      | None => throw ChessError
      end;
    g1 ← updateGame gameId
           [state_fen (c_fen gameRepresentation);
            state_lastMove move;
            history_pgn (c_pgn gameRepresentation);
            history_moves (c_history gameRepresentation)];
    game ← deref "game.players" g1;
    let blackUsername := p_username (black game) in
    let whiteUsername := p_username (white game) in
    let is_white := strict_eq (JStr username) whiteUsername in
    let opponent := if is_white then blackUsername else whiteUsername in
    _ ← modify (fun w =>
          set_lastMoveFromGame (<[gameId := movedata]> (lastMoveFromGame w)) w);
    _ ← modify (fun w =>
          set_playerReceivedLastmove
            (<[key blackUsername gameId := false]> (playerReceivedLastmove w)) w);
    _ ← modify (fun w =>
          set_playerReceivedLastmove
            (<[key whiteUsername gameId := false]> (playerReceivedLastmove w)) w);
    _ ← io_emit gameId (ev_moved (Some movedata));
    _ ← stop_loop (key (JStr username) gameId);
    g2 ← (if negb is_white || started game then
            h ← setInterval (decrement_loop gameId username opponent);
            tm ← timer_of (key opponent gameId);
            _ ← modify (fun w =>
                  set_timers (<[key opponent gameId := mkTimer (Some h) (time tm)]>
                                (timers w)) w);
            updateGame gameId [state_started true]
          else mret (Some game));
    if game_over gameRepresentation then
      gameOver gameId (JStr username) opponent
        (move_result username gameRepresentation)
    else
      w ← get;
      _ ← io_emit (userRoom blackUsername
                     (prop (sockets w) (to_str blackUsername)) gameId)
            (ev_updateGame g2);
      io_emit (userRoom whiteUsername
                 (prop (sockets w) (to_str whiteUsername)) gameId)
        (ev_updateGame g2).

Definition on_move `{Rules} (socket : string) (movedata : MoveData) : M unit :=
  try_catch (move_body movedata) log_error.

(** *** [resign] *)

Definition resign_body (socket : string) : M unit :=
  w ← get;
  let username := prop (users w) socket in
  let gameId := to_str (prop (currentGameId w) (to_str username)) in
  g ← getGame gameId;
  game ← deref "game.players" g;
  let whiteUsername := p_username (white game) in
  let blackUsername := p_username (black game) in
  if strict_eq username whiteUsername || strict_eq username blackUsername then
    if finished game then mret ()
    else
      let winner :=
        if strict_eq username whiteUsername then blackUsername
        else whiteUsername in
      gameOver gameId username winner (mkResultData (JStr "resignation") winner)
  else mret ().

Definition on_resign (socket : string) : M unit :=
  try_catch (resign_body socket) log_error.

(** *** [syncAck] and [moveAck] *)

Definition on_syncAck (socket : string) (now : Z) : M unit :=
  try_catch
    (w ← get;
     let username := prop (users w) socket in
     let gameId := to_str (prop (currentGameId w) (to_str username)) in
     match timesync w !! gameId with
     | Some ts =>
         modify (fun w =>
           set_timesync
             (<[gameId := mkTimeSync (mainLoop ts)
                            (<[to_str username := now]> (lastTimeSync ts))
                            (ackLoop ts)]> (timesync w)) w)
     | None => mret ()
     end)
    log_error.

Definition on_moveAck (socket : string) : M unit :=
  try_catch
    (w ← get;
     let username := prop (users w) socket in
     let gameId := to_str (prop (currentGameId w) (to_str username)) in
     modify (fun w =>
       set_playerReceivedLastmove
         (<[key username gameId := true]> (playerReceivedLastmove w)) w))
    log_error.

(** ** The event loop *)

(** What the process can be handed: the store connection resolving, an
    event of a connection, one period of an interval. *)
Inductive input : Type :=
| mongo_connected
| in_username (socket : string) (data_username : jsval) (random_username : string)
| in_disconnect (socket : string)
| in_getGames (socket : string)
| in_newGame (socket : string) (data_timeControl : string) (heads : bool)
    (insertedId : string) (now : Z)
| in_joinGame (socket : string) (gameId : string) (now : Z)
| in_move (socket : string) (movedata : MoveData)
| in_resign (socket : string)
| in_syncAck (socket : string) (now : Z)
| in_moveAck (socket : string)
| in_fire (now : Z) (h : nat).

Definition step `{Rules} (i : input) : M unit :=
  match i with
  | mongo_connected =>
      modify (fun w =>
        match gameCollection w with
        | None => set_gameCollection (Some ∅) w
        | Some _ => w
        end)
  | in_username socket u r => on_username socket u r
  | in_disconnect socket => on_disconnect socket
  | in_getGames socket => on_getGames socket
  | in_newGame socket tc heads id now => on_newGame socket tc heads id now
  | in_joinGame socket gameId now => on_joinGame socket gameId now
  | in_move socket movedata => on_move socket movedata
  | in_resign socket => on_resign socket
  | in_syncAck socket now => on_syncAck socket now
  | in_moveAck socket => on_moveAck socket
  | in_fire now h => fire now h
  end.

Fixpoint run `{Rules} (inputs : list input) : M unit :=
  match inputs with
  | [] => mret ()
  | i :: rest => _ ← step i; run rest
  end.

(** ** Observations used in the statements *)

(** The decrement loops scheduled for the clock entry [k]. *)
Definition is_decrement_for (k : string) (cb : callback) : bool :=
  match cb with
  | decrement_loop gameId _ opponent => String.eqb (key opponent gameId) k
  | _ => false
  end.

Definition decrement_loops (k : string) (w : World) : list (nat * callback) :=
  filter (fun hc => is_decrement_for k hc.2 = true) (map_to_list (intervals w)).


(** The document stored under [gameId], if the store is connected and has
    one. *)
Definition stored (w : World) (gameId : string) : option Game :=
  match gameCollection w with
  | Some db => db !! gameId
  | None => None
  end.

(** The store holds [game] under [gameId]. *)
Definition holds (gameId : string) (game : Game) (w : World) : Prop :=
  stored w gameId = Some game.

(** The condition under which [move] starts the opponent's clock:
    [orientation === 'black' || game.state.started]. *)
Definition starts_opponent (username : string) (game : Game) : bool :=
  negb (strict_eq (JStr username) (p_username (white game))) || started game.

(** [opponent], as [move] computes it. *)
Definition opponent_of (username : string) (game : Game) : jsval :=
  if strict_eq (JStr username) (p_username (white game))
  then p_username (black game)
  else p_username (white game).


(** *** Classes of effects *)

Definition is_call (e : effect) : bool :=
  match e with
  | Called_gameOver _ _ _ _ => true
  | _ => false
  end.

Definition is_SetInterval (e : effect) : bool :=
  match e with
  | SetInterval _ _ => true
  | _ => false
  end.



(** A client-visible emission. *)
Definition is_emission (e : effect) : bool :=
  match e with
  | IoEmit _ _ => true
  | SocketEmit _ _ => true
  | _ => false
  end.

(** A store write that carries [state.started]. *)
Definition carries_started (f : field) : bool :=
  match f with
  | state_started _ => true
  | _ => false
  end.

Definition is_started_write (e : effect) : bool :=
  match e with
  | DbUpdate _ upd => existsb carries_started upd
  | _ => false
  end.

(** Every [state.started] an update carries is [true]. *)
Definition sets_started_true (f : field) : bool :=
  match f with
  | state_started b => b
  | _ => true
  end.

Definition started_only_true (e : effect) : Prop :=
  match e with
  | DbUpdate _ upd => forallb sets_started_true upd = true
  | _ => True
  end.


(** *** A program logic for handlers *)

(** [triple I P m Q]: started in a memory satisfying [I], the run of [m]
    leaves a memory satisfying [I], emits only effects satisfying [P],
    and returns, if it returns, a value satisfying [Q]. *)
Definition triple (I : World -> Prop) (P : effect -> Prop) {A : Type}
    (m : M A) (Q : A -> Prop) : Prop :=
  forall w, I w ->
    I (final (m w)) /\ Forall P (output (m w)) /\
    match ended (m w) with
    | Ret a => Q a
    | Throw _ => True
    end.

(** *** Parts of the memory a handler does not look at *)



(** ** A scripted session *)

(** The moves of a pgn whose moves each end with a space. *)
Fixpoint pgn_moves (word : string) (p : string) : list string :=
  match p with
  | EmptyString => if String.eqb word "" then [] else [word]
  | String c rest =>
      if Ascii.eqb c (Ascii.ascii_of_nat 32) then
        if String.eqb word "" then pgn_moves "" rest
        else word :: pgn_moves "" rest
      else pgn_moves (word +:+ String c EmptyString) rest
  end.

(** A stand-in for chess.js in the examples: it accepts every move but
    ["throw"], appends the move to the pgn and to the history, and
    reports checkmate on ["Qxf7#"]. *)
Definition scripted : Rules :=
  {| load_and_move p m :=
       if String.eqb m "throw" then None
       else Some (mkChess ("fen after " +:+ p +:+ m) (p +:+ m +:+ " ")
                    (pgn_moves "" (p +:+ m)) (String.eqb m "Qxf7#")
                    (String.eqb m "Qxf7#") false false false false) |}.

(** alice (socket s1) and bob (socket s2) connect; alice hosts a 1+0 game,
    draws white; bob joins. *)
Definition in_lobby : list input :=
  [mongo_connected;
   in_username "s1" (JStr "alice") "";
   in_username "s2" (JStr "bob") ""].

Definition hosting : list input :=
  in_lobby ++ [in_newGame "s1" "1+0" true "g1" 0].

Definition seated : list input :=
  hosting ++ [in_joinGame "s2" "g1" 10].

Definition says (username : string) (move : Move) : MoveData :=
  mkMoveData username "g1" "" move.

Definition w_hosting : World := final (run (H := scripted) hosting boot).
Definition w_seated : World := final (run (H := scripted) seated boot).

(** A blank document, for lookups that cannot fail. *)
Definition no_game : Game :=
  mkGame JNull JNull (mkPlayer JNull None) (mkPlayer JNull None) "" ""
    false false false None "" [] JNull JNull.

Definition no_board : Chess :=
  mkChess "" "" [] false false false false false false.

(** bob resigns. *)
Definition w_resigned : World :=
  final (run (H := scripted) (seated ++ [in_resign "s2"]) boot).

(** 1. e4 e5, each sent under the mover's own name. *)
Definition w_replied : World :=
  final (run (H := scripted)
           (seated ++ [in_move "s1" (says "alice" "e4");
                       in_move "s2" (says "bob" "e5")]) boot).

(** 1. e4 e5 2. Nf3. *)
Definition w_bob_to_move : World :=
  final (run (H := scripted) [in_move "s1" (says "alice" "Nf3")] w_replied).

(** ** Observations on the remaining handlers *)

(** The document [gameOver] writes when it finalizes [game] with clock
    entries [tw] and [tb]. *)
Definition finalized (resultData : ResultData) (tw tb : Timer) (game : Game) : Game :=
  apply_update
    [state_finished true;
     result_description_f (rd_result resultData);
     result_winner_f (rd_winner resultData);
     players_white_time (js_max 0 (time tw));
     players_black_time (js_max 0 (time tb))] game.

(** [username] and [gameId] as the [resign] handler reads them. *)
Definition resigner (socket : string) (w : World) : jsval := prop (users w) socket.

Definition resigned_game (socket : string) (w : World) : string :=
  to_str (prop (currentGameId w) (to_str (prop (users w) socket))).

(** The name the [username] handler binds. *)
Definition claimed_name (data_username : jsval) (random_username : string) : string :=
  if truthy data_username then to_str data_username else random_username.

(** The memory a returning participant's claim leaves: both bindings set
    and the connection in the game's room and in its private room. *)
Definition rejoined (socket name gameId : string) (w : World) : World :=
  set_rooms ({[ (socket, userRoom (JStr name) (JStr socket) gameId) ]} ∪
             ({[ (socket, gameId) ]} ∪ rooms w))
    (set_sockets (<[name := socket]> (sockets w))
       (set_users (<[socket := name]> (users w)) w)).

(** What a returning participant is sent when the last move was not
    acknowledged under that name. *)
Definition replay (socket name gameId : string) (game : Game) (w : World) : list effect :=
  match playerReceivedLastmove w !! (name +:+ gameId) with
  | Some true => []
  | _ =>
      [IoEmit (userRoom (JStr name) (JStr socket) gameId)
         (ev_moved (lastMoveFromGame w !! gameId));
       IoEmit (userRoom (JStr name) (JStr socket) gameId)
         (ev_updateGame (Some game))]
  end.

(** The last acknowledgement is within the window of the liveness check. *)
Definition recent (now last : Z) : Prop := Z.abs (now - last) <= TIMESYNC_TIMEOUT.

#[global] Instance recent_dec (now last : Z) : Decision (recent now last) :=
  Z_le_dec _ _.

(** The document after an accepted move. *)
Definition moved_on (move : Move) (c : Chess) (game : Game) : Game :=
  apply_update
    [state_fen (c_fen c); state_lastMove move;
     history_pgn (c_pgn c); history_moves (c_history c)] game.

(** The memory once [move] has recorded the move as pending for both
    seats. *)
Definition marked (movedata : MoveData) (game : Game) (w : World) : World :=
  set_playerReceivedLastmove
    (<[key (p_username (white game)) (md_gameId movedata) := false]>
       (<[key (p_username (black game)) (md_gameId movedata) := false]>
          (playerReceivedLastmove w)))
    (set_lastMoveFromGame (<[md_gameId movedata := movedata]> (lastMoveFromGame w)) w).

(** The periods of one interval, at the given readings of the clock. *)
Definition ticking (h : nat) (nows : list Z) : list input :=
  map (fun now => in_fire now h) nows.



(** The lobby lists hold at most one joinable game per host and at most
    one watchable entry per game. *)
Definition lobby_ok (w : World) : Prop :=
  NoDup (le_host <$> joinableGames w) /\ NoDup (le_gameId <$> watchableGames w).

(** A clock value a client may be told: a number that is not negative, or
    no number at all. *)
Definition nonneg (t : jsnum) : Prop :=
  match t with
  | Some z => 0 <= z
  | None => True
  end.

(** A [timesync] event reports no negative clock. *)
Definition timesync_ok (e : effect) : Prop :=
  match e with
  | IoEmit _ (ev_timesync _ remaining) => Forall (fun ut => nonneg ut.2) remaining
  | SocketEmit _ (ev_timesync _ remaining) => Forall (fun ut => nonneg ut.2) remaining
  | _ => True
  end.

(** The clocks recorded in a finished document are not negative. *)
Definition doc_ok (game : Game) : Prop :=
  finished game = true ->
  nonneg (p_time (white game)) /\ nonneg (p_time (black game)).

(** Every stored document satisfies [doc_ok]. *)
Definition results_ok (w : World) : Prop :=
  forall gameId game, stored w gameId = Some game -> doc_ok game.

(** An update that touches neither [state.finished] nor a clock. *)
Definition keeps_result (f : field) : bool :=
  match f with
  | state_finished _ => false
  | players_white_time _ => false
  | players_black_time _ => false
  | _ => true
  end.

(** *** More of the scripted session *)


(** The session of [w_replied] under a time control the table [seconds]
    does not list. *)
Definition w_untimed : World :=
  final (run (H := scripted)
           (in_lobby ++
            [in_newGame "s1" "2+1" true "g1" 0;
             in_joinGame "s2" "g1" 10;
             in_move "s1" (says "alice" "e4");
             in_move "s2" (says "bob" "e5")]) boot).

(** The documents of the scripted session, written out. *)
Definition g_hosting : Game :=
  mkGame (JStr "alice") JNull (mkPlayer (JStr "alice") (Some 60))
    (mkPlayer JNull (Some 60)) "1+0" initial_fen true false false None "" []
    JNull JNull.

Definition g_seated : Game :=
  mkGame (JStr "alice") (JStr "bob") (mkPlayer (JStr "alice") (Some 60))
    (mkPlayer (JStr "bob") (Some 60)) "1+0" initial_fen false false false None
    "" [] JNull JNull.

Definition g_replied : Game :=
  mkGame (JStr "alice") (JStr "bob") (mkPlayer (JStr "alice") (Some 60))
    (mkPlayer (JStr "bob") (Some 60)) "1+0" "fen after e4 e5" false true false
    (Some "e5") "e4 e5 " ["e4"; "e5"] JNull JNull.

Definition g_resigned : Game :=
  mkGame (JStr "alice") (JStr "bob") (mkPlayer (JStr "alice") (Some 60))
    (mkPlayer (JStr "bob") (Some 60)) "1+0" initial_fen false false true None
    "" [] (JStr "resignation") (JStr "alice").

(** * Proofs *)

(** ** Rules of the program logic *)

Section Triples.
Context (I : World -> Prop) (P : effect -> Prop).

Lemma triple_ret {A : Type} (a : A) (Q : A -> Prop) :
  Q a -> triple I P (mret a) Q.
Proof. intros HQ w HI. cbn. auto. Qed.

Lemma triple_ret_True {A : Type} (a : A) :
  triple I P (mret a) (fun _ => True).
Proof. apply triple_ret. exact Logic.I. Qed.

Lemma triple_throw {A : Type} (e : exn) (Q : A -> Prop) :
  triple I P (throw e) Q.
Proof. intros w HI. cbn. auto. Qed.

Lemma triple_deref {A : Type} (reading : string) (o : option A) :
  triple I P (deref reading o) (fun a => o = Some a).
Proof. intros w HI. destruct o; cbn; auto. Qed.

Lemma triple_get : triple I P get I.
Proof. intros w HI. cbn. auto. Qed.

Lemma triple_bind {A B : Type} (m : M A) (k : A -> M B)
    (Q : A -> Prop) (R : B -> Prop) :
  triple I P m Q -> (forall a, Q a -> triple I P (k a) R) ->
  triple I P (m ≫= k) R.
Proof.
  intros Hm Hk w HI. unfold mbind, M_bind.
  destruct (Hm w HI) as (HI1 & HP1 & HQ1).
  destruct (m w) as [[a|e] w1 o1]; cbn in *.
  - destruct (Hk a HQ1 w1 HI1) as (HI2 & HP2 & HQ2).
    destruct (k a w1) as [e2 w2 o2]; cbn in *.
    split; [done|]. split; [|done]. apply Forall_app; auto.
  - auto.
Qed.

Lemma triple_try_catch (body : M unit) (handler : exn -> M unit)
    (Q : unit -> Prop) :
  triple I P body Q -> (forall e, triple I P (handler e) Q) ->
  triple I P (try_catch body handler) Q.
Proof.
  intros Hb Hh w HI. unfold try_catch.
  destruct (Hb w HI) as (HI1 & HP1 & HQ1).
  destruct (body w) as [[a|e] w1 o1]; cbn in *; [auto|].
  destruct (Hh e w1 HI1) as (HI2 & HP2 & HQ2).
  destruct (handler e w1) as [e2 w2 o2]; cbn in *.
  split; [done|]. split; [|done]. apply Forall_app; auto.
Qed.

Lemma triple_leaf {A : Type} (m : M A) :
  (forall w, I w -> I (final (m w)) /\ Forall P (output (m w))) ->
  triple I P m (fun _ => True).
Proof.
  intros Hleaf w HI. destruct (Hleaf w HI). split; [done|]. split; [done|].
  destruct (ended (m w)); done.
Qed.

Lemma triple_broadcast :
  (forall w u sid, I w -> sockets w !! u = Some sid ->
     P (IoEmit sid (gamesList_for (JStr u) w))) ->
  triple I P broadcast_gamesList (fun _ => True).
Proof.
  intros Hall. apply triple_leaf. intros w HI. cbn. split; [done|].
  apply Forall_map, Forall_forall. intros [u sid] Hin. cbn.
  apply Hall; [done|]. apply elem_of_map_to_list, Hin.
Qed.
End Triples.

(** One step of a proof of a triple, following the shape of the program.
    [known] applies triples that are already proved, [leaf] closes the
    conditions on a primitive. *)
Ltac triple_step known leaf :=
  first
  [ known
  | lazymatch goal with
    | |- triple _ _ (mbind _ _) _ => eapply triple_bind; [ | intros ? ? ]
    | |- triple _ _ (mret _) _ =>
        first [apply triple_ret_True | apply triple_ret; leaf]
    | |- triple _ _ (throw _) _ => apply triple_throw
    | |- triple _ _ get _ => apply triple_get
    | |- triple _ _ (deref _ _) _ => first [apply triple_deref | unfold deref]
    | |- triple _ _ (try_catch _ _) _ => apply triple_try_catch; [ | intros ? ]
    | |- triple _ _ (match ?x with _ => _ end) _ => destruct x eqn:?
    | |- triple _ _ (let _ := _ in _) _ => cbv zeta
    | |- triple _ _ (modify _) _ =>
        apply triple_leaf; intros ? ?; cbn; split; [leaf | leaf]
    | |- triple _ _ (tell _) _ =>
        apply triple_leaf; intros ? ?; cbn; split; [leaf | leaf]
    | |- triple _ _ (setInterval _) _ =>
        apply triple_leaf; intros ? ?; cbn; split; [leaf | leaf]
    | |- triple _ _ (clearInterval _) _ =>
        apply triple_leaf; intros ? ?; cbn; split; [leaf | leaf]
    | |- triple _ _ broadcast_gamesList _ =>
        apply triple_broadcast; intros ? ? ? ? ?; leaf
    | |- triple _ _ (?f _ _ _ _ _ _) _ => unfold f
    | |- triple _ _ (?f _ _ _ _ _) _ => unfold f
    | |- triple _ _ (?f _ _ _ _) _ => unfold f
    | |- triple _ _ (?f _ _ _) _ => unfold f
    | |- triple _ _ (?f _ _) _ => unfold f
    | |- triple _ _ (?f _) _ => unfold f
    end ].

Ltac triple_auto known leaf := repeat triple_step known leaf.

Ltac plain_leaf := try done; try (repeat constructor; done).

(** Closed statements about the scripted session are settled by running
    the handlers, one conjunct at a time. *)
Ltac by_running :=
  cbv zeta;
  repeat lazymatch goal with |- _ /\ _ => split end;
  vm_compute; reflexivity.

(** The scrutinee on which a run is stuck. *)
Ltac innermost x :=
  lazymatch x with
  | context [match ?y with _ => _ end] => innermost y
  | _ => x
  end.

Ltac unfold_handlers :=
  unfold on_move, on_joinGame, on_newGame, try_catch, move_body,
    joinGame_body, newGame_body, leave_previous, createGame, getGame,
    updateGame, stop_loop, timer_of, deref, when, get, log_error, tell,
    throw, modify, io_emit, socket_emit, socket_join, socket_leave,
    setInterval, clearInterval, broadcast_gamesList;
  unfold mbind, M_bind, mret, M_ret; cbn.

(** ** What [gameOver] leaves alone *)

(** The body of [gameOver] never enters [gameOver] again and schedules
    nothing. *)
Lemma gameOver_body_quiet gameId player1 player2 resultData :
  triple (fun _ => True)
    (fun e => is_call e = false /\ is_SetInterval e = false /\
              is_started_write e = false)
    (gameOver_body gameId player1 player2 resultData) (fun _ => True).
Proof. unfold gameOver_body. triple_auto fail plain_leaf. Qed.

Lemma gameOver_calls gameId player1 player2 resultData w :
  List.filter is_call (output (gameOver gameId player1 player2 resultData w)) =
    [Called_gameOver gameId player1 player2 resultData].
Proof.
  unfold gameOver. unfold mbind at 1. unfold M_bind, tell.
  destruct (gameOver_body_quiet gameId player1 player2 resultData w Logic.I)
    as (_ & Hquiet & _).
  destruct (gameOver_body gameId player1 player2 resultData w) as [e w' o].
  cbn in *. f_equal.
  induction Hquiet as [|x l [Hx _] _ IH]; [done|].
  cbn. rewrite Hx. exact IH.
Qed.

Lemma gameOver_schedules_nothing gameId player1 player2 resultData w :
  List.filter is_SetInterval
    (output (gameOver gameId player1 player2 resultData w)) = [] /\
  List.filter is_started_write
    (output (gameOver gameId player1 player2 resultData w)) = [].
Proof.
  unfold gameOver. unfold mbind, M_bind, tell.
  destruct (gameOver_body_quiet gameId player1 player2 resultData w Logic.I)
    as (_ & Hquiet & _).
  destruct (gameOver_body gameId player1 player2 resultData w) as [e w' o].
  cbn in *.
  induction Hquiet as [|x l (_ & Hx & Hs) _ [IH1 IH2]]; [done|].
  cbn. rewrite Hx, Hs. done.
Qed.

Lemma apply_update_started upd g :
  existsb carries_started upd = false ->
  started (apply_update upd g) = started g.
Proof.
  revert g. induction upd as [|f upd IH]; intros g Hupd; [done|].
  cbn in Hupd. apply orb_false_iff in Hupd as [Hf Hupd].
  cbn. unfold apply_update in IH. rewrite IH by done.
  destruct f; done.
Qed.

(** [gameOver] leaves [state.started] of every document as it is. *)
Lemma gameOver_keeps_started gameId' v gameId player1 player2 resultData :
  triple (fun w => started <$> stored w gameId' = v) (fun _ => True)
    (gameOver gameId player1 player2 resultData) (fun _ => True).
Proof.
  assert (Hupd : forall upd,
    existsb carries_started upd = false ->
    triple (fun w => started <$> stored w gameId' = v) (fun _ => True)
      (updateGame gameId upd) (fun _ => True)).
  { intros upd Hupd. apply triple_leaf. intros w HI.
    unfold updateGame, get, tell, modify.
    unfold mbind, M_bind, mret, M_ret. cbn.
    unfold stored in *.
    destruct (gameCollection w) as [db|] eqn:Hdb; cbn;
      [|rewrite Hdb; split; [done|constructor]].
    destruct (db !! gameId) as [g|] eqn:Hg; cbn;
      [|rewrite Hdb; split; [done|by repeat constructor]].
    split; [|by repeat constructor].
    destruct (decide (gameId = gameId')) as [<-|Hne].
    - rewrite lookup_insert_eq. cbn. rewrite apply_update_started by done.
      rewrite Hg in HI. exact HI.
    - rewrite lookup_insert_ne; done. }
  unfold gameOver, gameOver_body.
  triple_auto ltac:(apply Hupd; done) plain_leaf.
Qed.

(** [stop_loop] and [gameOver] leave the remaining time of every clock
    entry as it is. *)
Lemma stop_loop_keeps_time (P : effect -> Prop) k v k' :
  (forall h, P (ClearInterval h)) ->
  triple (fun w => time <$> timers w !! k = v) P (stop_loop k') (fun _ => True).
Proof.
  intros HP. apply triple_leaf. intros w HI.
  unfold stop_loop, timer_of, deref, get, clearInterval, modify.
  unfold mbind, M_bind, mret, M_ret. cbn.
  destruct (timers w !! k') as [tm|] eqn:Hk'; cbn; [|by split].
  destruct (loop tm) as [h|]; cbn; [|by split].
  split; [|by repeat constructor].
  destruct (decide (k' = k)) as [->|Hne].
  - rewrite lookup_insert_eq. rewrite Hk' in HI. exact HI.
  - rewrite lookup_insert_ne; done.
Qed.

Lemma gameOver_keeps_time k v gameId player1 player2 resultData :
  triple (fun w => time <$> timers w !! k = v) (fun _ => True)
    (gameOver gameId player1 player2 resultData) (fun _ => True).
Proof.
  unfold gameOver, gameOver_body.
  triple_auto ltac:(apply stop_loop_keeps_time; done) plain_leaf.
Qed.

(** ** The decrement loop *)


(** ** Restarting a clock that is running *)

(** C2 (the code departs from it). After 1. e4 e5 2. Nf3 bob's clock is
    running on one decrement loop. A further [move] event that names
    alice as the mover (here black's reply Nc6 relayed under her name)
    schedules a second decrement loop on bob's entry without clearing the
    first: both handles stay scheduled, the entry only remembers the
    newer one, and one second later bob has lost two seconds. *)
Theorem restart_duplicates_decrement_loop :
  let w := w_bob_to_move in
  let w' := final (on_move (H := scripted) "s2" (says "alice" "Nc6") w) in
  let later := final (run (H := scripted) [in_fire 1000 5%nat; in_fire 1000 6%nat] w') in
  timers w !! "bobg1" = Some (mkTimer (Some 5%nat) (Some 60)) /\
  length (decrement_loops "bobg1" w) = 1%nat /\
  length (decrement_loops "bobg1" w') = 2%nat /\
  intervals w' !! 5%nat = Some (decrement_loop "g1" "alice" (JStr "bob")) /\
  intervals w' !! 6%nat = Some (decrement_loop "g1" "alice" (JStr "bob")) /\
  timers w' !! "bobg1" = Some (mkTimer (Some 6%nat) (Some 60)) /\
  timers later !! "bobg1" = Some (mkTimer (Some 6%nat) (Some 58)).
Proof. by_running. Qed.

(** ** The liveness check of a host who waits alone *)

(** C5 (the code departs from it). alice hosts a game and never
    acknowledges; no second seat is taken. When the liveness check fires
    after the window, the lobby is rebroadcast and [gameOver] is entered
    with result [abandonment] and winner [null], but it throws while it
    reads the clock of the unbound seat: no [gameOver] event is emitted,
    the document stays unfinished, and the time-sync record and both of
    its intervals stay scheduled. *)
Theorem host_abandonment_is_not_finalized :
  let r := fire 180001 1%nat w_hosting in
  intervals w_hosting !! 1%nat = Some (host_ackLoop "g1" (JStr "alice")) /\
  output r =
    [IoEmit "s1" (ev_gamesList [] []);
     IoEmit "s2" (ev_gamesList [] []);
     Called_gameOver "g1" JNull JNull (mkResultData (JStr "abandonment") JNull);
     UnhandledRejection (TypeError "timers[k]")] /\
  finished <$> stored (final r) "g1" = Some false /\
  timesync (final r) = timesync w_hosting /\
  intervals (final r) = intervals w_hosting /\
  timers (final r) = timers w_hosting.
Proof. by_running. Qed.

(** The same check on a session with both seats taken does finalize:
    bob's last acknowledgment is stale, alice's is not. *)
Example seated_abandonment_is_finalized :
  let w := final (on_syncAck "s1" 100000 w_seated) in
  let r := fire 180011 3%nat w in
  List.filter is_emission (firstn 2 (output r)) =
    [IoEmit "g1" (ev_gameOver (mkResultData (JStr "abandonment") (JStr "alice")))] /\
  finished <$> stored (final r) "g1" = Some true /\
  timesync (final r) !! "g1" = None /\
  intervals (final r) = ∅.
Proof. by_running. Qed.

(** ** The grace period *)

(** C3 (the claim as stated fails). Both seats are taken and no move has
    been played. The first [move] event names bob, the black seat, as the
    mover: alice's clock is started at once and runs, although no move
    has been replied to and the session is not past its grace period. *)
Lemma first_move_under_black_name_starts_clock :
  let w := w_seated in
  let w' := final (on_move (H := scripted) "s2" (says "bob" "e4") w) in
  (moves <$> stored w "g1" = Some [] /\
   lastMove <$> stored w "g1" = Some None /\
   started <$> stored w "g1" = Some false /\
   p_username <$> (white <$> stored w "g1") = Some (JStr "alice") /\
   timers w !! "aliceg1" = Some (mkTimer None (Some 60))) /\
  timers w' !! "aliceg1" = Some (mkTimer (Some 4%nat) (Some 60)) /\
  intervals w' !! 4%nat = Some (decrement_loop "g1" "bob" (JStr "alice")) /\
  timers (final (fire 1000 4%nat w')) !! "aliceg1" =
    Some (mkTimer (Some 4%nat) (Some 59)).
Proof. by_running. Qed.

(** C3 (amended). A [move] event on an unfinished session that the rules
    library accepts and whose named mover has a clock entry schedules a
    decrement loop for the opponent exactly when the payload's username
    is not the white seat's or the started flag is already set, and it
    schedules nothing else; then, if the opponent has a clock entry and
    the game is not over, that entry runs on the new loop with the
    remaining time it had. *)
Theorem opponent_clock_restart `{Rules} (w : World) (socket : string)
    (md : MoveData) (game : Game) (c : Chess) (tm : Timer) :
  stored w (md_gameId md) = Some game ->
  finished game = false ->
  load_and_move (pgn game) (md_move md) = Some c ->
  timers w !! key (JStr (md_username md)) (md_gameId md) = Some tm ->
  let opponent := opponent_of (md_username md) game in
  let tick := decrement_loop (md_gameId md) (md_username md) opponent in
  List.filter is_SetInterval (output (on_move socket md w)) =
    (if starts_opponent (md_username md) game
     then [SetInterval (next_handle w) tick]
     else []) /\
  (forall t_opp,
     starts_opponent (md_username md) game = true ->
     timers w !! key opponent (md_gameId md) = Some t_opp ->
     game_over c = false ->
     timers (final (on_move socket md w)) !! key opponent (md_gameId md) =
       Some (mkTimer (Some (next_handle w)) (time t_opp)) /\
     intervals (final (on_move socket md w)) !! next_handle w = Some tick).
Proof.
  intros Hg Hf Hc Htm opponent tick. subst tick opponent.
  unfold stored in Hg. unfold starts_opponent, opponent_of.
  destruct (gameCollection w) as [db|] eqn:Hdb; [|done].
  destruct md as [username gameId fen0 move]. cbn in *.
  split.
  - unfold_handlers.
    rewrite Hdb. cbn. rewrite Hg. cbn. rewrite Hf, Hc. cbn.
    rewrite Hdb; cbn. rewrite Hg; cbn. rewrite Htm. cbn.
    repeat match goal with
    | |- context [gameOver ?a ?b ?c ?d ?w0] =>
        pose proof (proj1 (gameOver_schedules_nothing a b c d w0)) as Hquiet;
        destruct (gameOver a b c d w0) as [? ? ?]; cbn in *
    | |- context [match ?x with _ => _ end] =>
        let y := innermost x in destruct y eqn:?; cbn in *
    end.
    all: rewrite ?List.filter_app; cbn; rewrite ?Hquiet; done.
  - intros t_opp Hstart Hopp Hover.
    destruct (strict_eq (JStr username) (p_username (white game))) eqn:Hw;
      cbn in Hstart, Hopp.
    all: set (ko := key _ gameId) in Hopp.
    all: assert (Hafter : forall h,
      exists t', (<[key (JStr username) gameId := mkTimer h (time tm)]> (timers w))
                   !! ko = Some t' /\ time t' = time t_opp)
      by (intros h0;
          destruct (decide (key (JStr username) gameId = ko)) as [Heq|Hne];
          [ rewrite Heq, lookup_insert_eq; eexists; split; [done|]; cbn;
            rewrite Heq in Htm; congruence
          | rewrite lookup_insert_ne by done; eauto ]).
    all: subst ko.
    all: unfold_handlers.
    all: rewrite Hdb; cbn; rewrite Hg; cbn; rewrite Hf, Hc; cbn.
    all: rewrite Hdb; cbn; rewrite Hg; cbn; rewrite Htm; cbn.
    all: rewrite Hw; cbn; rewrite ?Hstart; cbn.
    all: destruct (loop tm) as [h|]; cbn.
    all: try (destruct (Hafter None) as (t' & -> & Ht')); rewrite ?Hopp; cbn.
    all: rewrite ?lookup_insert_eq; cbn; rewrite Hover; cbn.
    all: rewrite !lookup_insert_eq, ?Ht'; done.
Qed.

(** alice plays 2. Nf3 on the session that bob's reply started: bob's
    clock is started on a new loop, with the 60 seconds it had. *)
Lemma opponent_clock_restart_witness :
  let w := w_replied in
  let md := says "alice" "Nf3" in
  List.filter is_SetInterval (output (on_move (H := scripted) "s1" md w)) =
    (if starts_opponent (md_username md) (default no_game (stored w "g1"))
     then [SetInterval (next_handle w)
             (decrement_loop "g1" "alice"
                (opponent_of "alice" (default no_game (stored w "g1"))))]
     else []) /\
  timers (final (on_move (H := scripted) "s1" md w)) !! "bobg1" =
    Some (mkTimer (Some 5%nat) (Some 60)).
Proof.
  intros w md.
  destruct (opponent_clock_restart (H := scripted) w "s1" md
              (default no_game (stored w "g1"))
              (default no_board
                 (load_and_move (Rules := scripted)
                    (pgn (default no_game (stored w "g1"))) "Nf3"))
              (mkTimer (Some 4%nat) (Some 60)))
    as [Hsched Hentry]; [vm_compute; reflexivity ..|].
  split; [exact Hsched|].
  destruct (Hentry (mkTimer None (Some 60)))
    as [Htimer _]; [vm_compute; reflexivity ..|].
  exact Htimer.
Defined.


(** ** The started flag *)

(** C9 (the claim as stated fails). After 1. e4 e5 the flag is set;
    alice's 2. Nf3 writes it again. *)
Lemma later_move_rewrites_started :
  let w := w_replied in
  started <$> stored w "g1" = Some true /\
  List.filter is_started_write
    (output (on_move (H := scripted) "s1" (says "alice" "Nf3") w)) =
    [DbUpdate "g1" [state_started true]].
Proof. by_running. Qed.

Lemma apply_update_started_true upd g :
  forallb sets_started_true upd = true ->
  started g = true ->
  started (apply_update upd g) = true.
Proof.
  revert g. induction upd as [|f upd IH]; intros g Hupd Hg; [done|].
  cbn in Hupd. apply andb_true_iff in Hupd as [Hf Hupd].
  cbn. unfold apply_update in IH. apply IH; [done|].
  destruct f; cbn in *; congruence.
Qed.

Lemma updateGame_started_stays gameId' (P : effect -> Prop) gameId upd :
  forallb sets_started_true upd = true ->
  P (DbUpdate gameId upd) ->
  triple (fun w => started <$> stored w gameId' = Some true) P
    (updateGame gameId upd) (fun _ => True).
Proof.
  intros Hupd HP. apply triple_leaf. intros w HI.
  unfold updateGame, get, tell, modify.
  unfold mbind, M_bind, mret, M_ret. cbn.
  unfold stored in *.
  destruct (gameCollection w) as [db|] eqn:Hdb; cbn;
    [|rewrite Hdb; split; [done|constructor]].
  destruct (db !! gameId) as [g|] eqn:Hg; cbn;
    [|rewrite Hdb; split; [done|by repeat constructor]].
  split; [|by repeat constructor].
  destruct (decide (gameId = gameId')) as [<-|Hne].
  - rewrite lookup_insert_eq. cbn. rewrite Hg in HI. cbn in HI.
    f_equal. apply apply_update_started_true; [done|congruence].
  - rewrite lookup_insert_ne; done.
Qed.

Lemma createGame_started_stays gameId' (P : effect -> Prop) insertedId game :
  P (DbInsert insertedId game) ->
  triple (fun w => started <$> stored w gameId' = Some true) P
    (createGame insertedId game) (fun _ => True).
Proof.
  intros HP. apply triple_leaf. intros w HI.
  unfold createGame, get, tell, modify, throw.
  unfold mbind, M_bind, mret, M_ret. cbn.
  unfold stored in *.
  destruct (gameCollection w) as [db|] eqn:Hdb; cbn;
    [|rewrite Hdb; split; [done|constructor]].
  destruct (db !! insertedId) as [g|] eqn:Hg; cbn;
    [rewrite Hdb; split; [done|constructor]|].
  split; [|by repeat constructor].
  destruct (decide (insertedId = gameId')) as [<-|Hne].
  - rewrite Hg in HI. done.
  - rewrite lookup_insert_ne; done.
Qed.

Ltac started_leaf :=
  unfold stored in *; cbn in *; try done;
  try (repeat constructor; cbn; repeat case_match; done).

Lemma step_writes_started_true `{Rules} (i : input) :
  triple (fun _ => True) started_only_true (step i) (fun _ => True).
Proof. destruct i; cbn [step]; triple_auto fail started_leaf. Qed.

Lemma step_started_stays `{Rules} (gameId : string) (i : input) :
  triple (fun w => started <$> stored w gameId = Some true) (fun _ => True)
    (step i) (fun _ => True).
Proof.
  destruct i; cbn [step];
    [ apply triple_leaf; intros w HI; unfold modify, stored in *; cbn;
      destruct (gameCollection w) eqn:Hdb; cbn; rewrite ?Hdb;
      (split; [done|constructor])
    | triple_auto
        ltac:(first [ apply updateGame_started_stays;
                        [cbn; repeat case_match; done|done]
                    | apply createGame_started_stays; done ])
        started_leaf .. ].
Qed.

Lemma accepted_move_started `{Rules} (w : World) (socket : string)
    (md : MoveData) (game : Game) (c : Chess) (tm t_opp : Timer) :
  stored w (md_gameId md) = Some game ->
  finished game = false ->
  load_and_move (pgn game) (md_move md) = Some c ->
  timers w !! key (JStr (md_username md)) (md_gameId md) = Some tm ->
  timers w !! key (opponent_of (md_username md) game) (md_gameId md) = Some t_opp ->
  List.filter is_started_write (output (on_move socket md w)) =
    (if starts_opponent (md_username md) game
     then [DbUpdate (md_gameId md) [state_started true]]
     else []) /\
  started <$> stored (final (on_move socket md w)) (md_gameId md) =
    Some (starts_opponent (md_username md) game).
Proof.
  intros Hg Hf Hc Htm Hopp.
  unfold stored in Hg. unfold starts_opponent, opponent_of in *.
  destruct (gameCollection w) as [db|] eqn:Hdb; [|done].
  destruct md as [username gameId fen0 move]. cbn in *.
  destruct (strict_eq (JStr username) (p_username (white game))) eqn:Hw;
    cbn in Hopp |- *.
  all: set (ko := key _ gameId) in Hopp.
  all: assert (Hafter : forall h,
    exists t', (<[key (JStr username) gameId := mkTimer h (time tm)]> (timers w))
                 !! ko = Some t' /\ time t' = time t_opp)
    by (intros h0;
        destruct (decide (key (JStr username) gameId = ko)) as [Heq|Hne];
        [ rewrite Heq, lookup_insert_eq; eexists; split; [done|]; cbn;
          rewrite Heq in Htm; congruence
        | rewrite lookup_insert_ne by done; eauto ]).
  all: subst ko.
  all: unfold_handlers.
  all: rewrite Hdb; cbn; rewrite Hg; cbn; rewrite Hf, Hc; cbn.
  all: rewrite Hdb; cbn; rewrite Hg; cbn; rewrite Htm; cbn.
  all: rewrite Hw; cbn.
  all: destruct (started game) eqn:Hs; cbn.
  all: destruct (loop tm) as [h|]; cbn.
  all: try (destruct (Hafter None) as (t' & -> & Ht')); rewrite ?Hopp; cbn.
  all: rewrite ?lookup_insert_eq; cbn.
  all: destruct (game_over c); cbn.
  all: repeat match goal with
    | |- context [gameOver ?a ?b ?c ?d ?w0] =>
        pose proof (proj2 (gameOver_schedules_nothing a b c d w0)) as Hquiet;
        pose proof (proj1 (gameOver_keeps_started a (started <$> stored w0 a)
                             a b c d w0 eq_refl)) as Hkeep;
        destruct (gameOver a b c d w0) as [[?|?] ? ?]; cbn in *
    end.
  all: rewrite ?List.filter_app; cbn; rewrite ?Hquiet; cbn.
  all: split; [done|].
  all: rewrite ?Hkeep; unfold stored; cbn; rewrite ?lookup_insert_eq; cbn;
    rewrite ?Hs; done.
Qed.

(** C9 (amended). No handler and no callback ever writes [state.started]
    with a value other than [true], and once the stored flag is set no
    input unsets it. A [move] event on an unfinished session that the
    rules library accepts, with clock entries for the named mover and for
    the opponent, writes the flag (with [true]) exactly when the payload's
    username is not the white seat's or the flag is already set, and
    leaves it set exactly then: the flag turns true at the first such
    move, and every later accepted move writes it again. *)
Theorem started_flag_writes `{Rules} :
  (forall i w, Forall started_only_true (output (step i w))) /\
  (forall i w gameId,
     started <$> stored w gameId = Some true ->
     started <$> stored (final (step i w)) gameId = Some true) /\
  (forall w socket md game c tm t_opp,
     stored w (md_gameId md) = Some game ->
     finished game = false ->
     load_and_move (pgn game) (md_move md) = Some c ->
     timers w !! key (JStr (md_username md)) (md_gameId md) = Some tm ->
     timers w !! key (opponent_of (md_username md) game) (md_gameId md) =
       Some t_opp ->
     List.filter is_started_write (output (on_move socket md w)) =
       (if starts_opponent (md_username md) game
        then [DbUpdate (md_gameId md) [state_started true]]
        else []) /\
     started <$> stored (final (on_move socket md w)) (md_gameId md) =
       Some (starts_opponent (md_username md) game)).
Proof.
  split; [|split].
  - intros i w. apply (step_writes_started_true i w Logic.I).
  - intros i w gameId Hset. apply (step_started_stays gameId i w Hset).
  - intros w socket md game c tm t_opp. apply accepted_move_started.
Qed.

(** alice's 1. e4 on the seated session writes nothing and leaves the flag
    unset; on the session bob's reply started, the flag survives a
    resignation. *)
Lemma started_flag_writes_witness :
  (List.filter is_started_write
     (output (on_move (H := scripted) "s1" (says "alice" "e4") w_seated)) =
     (if starts_opponent "alice" (default no_game (stored w_seated "g1"))
      then [DbUpdate "g1" [state_started true]]
      else []) /\
   started <$> stored (final (on_move (H := scripted) "s1" (says "alice" "e4")
                                w_seated)) "g1" =
     Some (starts_opponent "alice" (default no_game (stored w_seated "g1")))) /\
  started <$> stored (final (step (H := scripted) (in_resign "s2") w_replied)) "g1" =
    Some true.
Proof.
  destruct (started_flag_writes (H := scripted)) as (_ & Hstays & Hmove).
  split.
  - apply (Hmove w_seated "s1" (says "alice" "e4")
             (default no_game (stored w_seated "g1"))
             (default no_board
                (load_and_move (Rules := scripted)
                   (pgn (default no_game (stored w_seated "g1"))) "e4"))
             (mkTimer None (Some 60)) (mkTimer None (Some 60)));
      vm_compute; reflexivity.
  - apply Hstays. vm_compute. reflexivity.
Defined.

(** ** The lobby listing *)








(** ** Joining as a watcher *)



(** ** Faults inside a handler *)







(** ** The finalize path on a finished session *)

(** Whatever the process is handed, a stored document whose finished
    flag is set stays exactly as it is. *)

Section Finished.
Context (gameId : string) (game : Game) (Hfinished : finished game = true).

Lemma doc_getGame (P : effect -> Prop) gameId' :
  triple (holds gameId game) P (getGame gameId')
    (fun g => gameId' = gameId -> g = Some game).
Proof.
  intros w HI. unfold getGame, get, throw, holds, stored in *.
  unfold mbind, M_bind, mret, M_ret. cbn.
  destruct (gameCollection w) as [db|] eqn:Hdb; cbn; rewrite Hdb.
  - split; [done|]. split; [constructor|]. by intros ->.
  - done.
Qed.

Lemma doc_updateGame_other (P : effect -> Prop) gameId' upd :
  gameId' ≠ gameId ->
  P (DbUpdate gameId' upd) ->
  triple (holds gameId game) P (updateGame gameId' upd) (fun _ => True).
Proof.
  intros Hne HP. apply triple_leaf. intros w HI.
  unfold updateGame, get, tell, modify, holds, stored in *.
  unfold mbind, M_bind, mret, M_ret. cbn.
  destruct (gameCollection w) as [db|] eqn:Hdb; cbn; [|by rewrite Hdb].
  destruct (db !! gameId') as [g|] eqn:Hg; cbn;
    [|rewrite Hdb; split; [done|by repeat constructor]].
  split; [|by repeat constructor].
  rewrite lookup_insert_ne; done.
Qed.

Lemma doc_createGame (P : effect -> Prop) insertedId g :
  P (DbInsert insertedId g) ->
  triple (holds gameId game) P (createGame insertedId g) (fun _ => True).
Proof.
  intros HP. apply triple_leaf. intros w HI.
  unfold createGame, get, tell, modify, throw, holds, stored in *.
  unfold mbind, M_bind, mret, M_ret. cbn.
  destruct (gameCollection w) as [db|] eqn:Hdb; cbn; [|by rewrite Hdb].
  destruct (db !! insertedId) as [g'|] eqn:Hg; cbn;
    [rewrite Hdb; split; [done|constructor]|].
  split; [|by repeat constructor].
  rewrite lookup_insert_ne; [done|]. intros ->. congruence.
Qed.

Ltac doc_contra :=
  exfalso; cbv beta in *;
  repeat match goal with
  | Hq : ?x = ?y -> _, Heq : ?x = ?y |- _ => specialize (Hq Heq)
  end;
  simplify_eq;
  unfold is_watcher in *;
  repeat match goal with
  | Hf : finished ?g = true, Hb : context [finished ?g] |- _ =>
      lazymatch Hb with Hf => fail | _ => rewrite Hf in Hb end
  end;
  repeat match goal with
  | Hb : context [?b || true] |- _ => rewrite (orb_true_r b) in Hb
  end;
  cbn in *; first [done | congruence | repeat case_match; cbn in *; done].

Ltac doc_known :=
  first
  [ apply doc_getGame
  | apply doc_createGame; done
  | apply doc_updateGame_other; [intros Hsame; doc_contra | done] ].

Ltac doc_leaf :=
  unfold holds, stored in *; cbn in *; try done;
  try (repeat case_match; cbn; done);
  try (repeat constructor; cbn; repeat case_match; done).

Lemma step_keeps_finished_document `{Rules} (i : input) :
  triple (holds gameId game) (fun _ => True) (step i) (fun _ => True).
Proof.
  destruct i; cbn [step];
    [ apply triple_leaf; intros w HI; unfold modify, holds, stored in *; cbn;
      destruct (gameCollection w) eqn:Hdb; cbn; rewrite ?Hdb;
      (split; [done|constructor])
    | triple_auto doc_known doc_leaf .. ].
Qed.

End Finished.

Lemma run_keeps_finished_document `{Rules} (gameId : string) (game : Game)
    (inputs : list input) (w : World) :
  finished game = true ->
  stored w gameId = Some game ->
  stored (final (run inputs w)) gameId = Some game.
Proof.
  intros Hf. revert w. induction inputs as [|i inputs IH]; intros w Hw; [done|].
  cbn. unfold mbind, M_bind.
  destruct (step_keeps_finished_document gameId game Hf i w Hw) as (Hw1 & _ & _).
  destruct (step i w) as [[[]|e] w1 o1]; cbn in *; [|done].
  specialize (IH w1 Hw1). destruct (run inputs w1). exact IH.
Qed.

(** C1. On a session whose finished flag is set, [gameOver] changes
    nothing in the server memory (store, clocks, intervals, lobby) and
    its output is the entry marker alone: no [gameOver] event, no store
    write; a [move] event for that session returns at once, with the
    memory unchanged and nothing emitted; and whatever inputs follow,
    the stored document (position, history, result) stays as it is. *)
Theorem finished_session_is_frozen `{Rules} (w : World) (gameId : string)
    (game : Game) :
  stored w gameId = Some game ->
  finished game = true ->
  (forall player1 player2 resultData,
     final (gameOver gameId player1 player2 resultData w) = w /\
     output (gameOver gameId player1 player2 resultData w) =
       [Called_gameOver gameId player1 player2 resultData]) /\
  (forall socket movedata,
     md_gameId movedata = gameId ->
     on_move socket movedata w = mkRun (Ret ()) w []) /\
  (forall inputs, stored (final (run inputs w)) gameId = Some game).
Proof.
  intros Hg Hf. split; [|split].
  - unfold stored in Hg.
    destruct (gameCollection w) as [db|] eqn:Hdb; [|done].
    intros p1 p2 rd.
    unfold gameOver, gameOver_body, getGame, timer_of, deref, tell, get.
    unfold mbind, M_bind, mret, M_ret. cbn.
    rewrite Hdb. cbn. rewrite Hg. cbn.
    destruct (timers w !! key (p_username (white game)) gameId); cbn; [|done].
    destruct (timers w !! key (p_username (black game)) gameId); cbn; [|done].
    rewrite Hf. cbn. done.
  - unfold stored in Hg.
    destruct (gameCollection w) as [db|] eqn:Hdb; [|done].
    intros socket md <-.
    unfold on_move, try_catch, move_body, getGame, deref, get.
    unfold mbind, M_bind, mret, M_ret. cbn.
    rewrite Hdb. cbn. rewrite Hg. cbn. rewrite Hf. done.
  - intros inputs. by apply run_keeps_finished_document.
Qed.

(** After bob's resignation: a late timeout for bob, a move by alice, and
    a reconnection followed by a move and a second resignation. *)
Lemma finished_session_is_frozen_witness :
  final (gameOver "g1" (JStr "alice") (JStr "bob")
           (mkResultData (JStr "ontime") (JStr "alice")) w_resigned) = w_resigned /\
  on_move (H := scripted) "s1" (says "alice" "e4") w_resigned =
    mkRun (Ret ()) w_resigned [] /\
  stored (final (run (H := scripted)
                   [in_username "s4" (JStr "bob") "";
                    in_move "s4" (says "bob" "e5");
                    in_resign "s1"] w_resigned)) "g1" =
    Some (default no_game (stored w_resigned "g1")).
Proof.
  destruct (finished_session_is_frozen (H := scripted) w_resigned "g1"
              (default no_game (stored w_resigned "g1")))
    as (Hfinal & Hmove & Hlater).
  - vm_compute. reflexivity.
  - vm_compute. reflexivity.
  - split; [|split].
    + apply Hfinal.
    + apply Hmove. reflexivity.
    + apply Hlater.
Defined.


(** ** The sender of a move *)

Section Commutes.
Context (f : World -> World).






End Commutes.




(** carol, who holds no seat, plays 1. e4 for alice from her own
    connection; a move under her own name is applied to the position
    too, before the handler fails on her missing clock entry. *)
Example move_from_a_spectator :
  let w := final (on_username "s3" (JStr "carol") "" w_seated) in
  let r := on_move (H := scripted) "s3" (says "alice" "e4") w in
  let r' := on_move (H := scripted) "s3" (says "carol" "e4") w in
  pgn <$> stored (final r) "g1" = Some "e4 " /\
  r = on_move (H := scripted) "s1" (says "alice" "e4") w /\
  pgn <$> stored (final r') "g1" = Some "e4 " /\
  List.filter is_emission (output r') =
    [IoEmit "g1" (ev_moved (Some (says "carol" "e4")))].
Proof. by_running. Qed.

(** * The remaining handlers *)

(** Runs a handler through, case by case on what it is stuck on. *)
Ltac run_cases :=
  repeat match goal with
  | |- context [match ?x with _ => _ end] =>
      let y := innermost x in destruct y eqn:?; cbn in *
  end.

(** Closes the cases in which a clock entry assumed present is missing. *)
Ltac absurd_lookup :=
  exfalso;
  repeat match goal with
  | H : true = true -> _ |- _ => specialize (H eq_refl)
  end;
  repeat match goal with
  | H : <[_ := _]> _ !! _ = None |- _ => apply lookup_insert_None in H as [? ?]
  end;
  repeat match goal with
  | H : is_Some _ |- _ => destruct H
  end;
  congruence.

(** A handle that was cancelled on the way is not scheduled. *)
Ltac unscheduled :=
  repeat (apply lookup_delete_None; first [left; congruence | right]).

(** The clock entry of a stopped player has no loop. *)
Ltac nulled :=
  repeat first
    [ rewrite lookup_insert_eq
    | match goal with
      | H : ?m !! ?k = Some _ |- context [?m !! ?k] => rewrite H
      end
    | rewrite lookup_insert; case_decide ];
  cbn; try done; congruence.

(** ** The finalize path, run to completion *)

Lemma Forall_filter_self {A : Type} (P : A -> Prop) `{forall x, Decision (P x)}
    (l : list A) :
  Forall P (filter P l).
Proof. apply Forall_forall. intros x Hx. apply list_elem_of_filter in Hx. tauto. Qed.

(** The run of [gameOver] on an unfinished session with its clock entries
    in place. *)
Lemma gameOver_run (w : World) (gameId : string) (player1 player2 : jsval)
    (resultData : ResultData) (game : Game) (tw tb : Timer) :
  stored w gameId = Some game ->
  finished game = false ->
  timers w !! key (p_username (white game)) gameId = Some tw ->
  timers w !! key (p_username (black game)) gameId = Some tb ->
  (truthy player1 = true -> is_Some (timers w !! key player1 gameId)) ->
  (truthy player2 = true -> is_Some (timers w !! key player2 gameId)) ->
  let r := gameOver gameId player1 player2 resultData w in
  ended r = Ret () /\
  stored (final r) gameId = Some (finalized resultData tw tb game) /\
  timesync (final r) !! gameId = None /\
  (forall ts, timesync w !! gameId = Some ts ->
     intervals (final r) !! mainLoop ts = None /\
     intervals (final r) !! ackLoop ts = None) /\
  (forall p, p = player1 \/ p = player2 -> truthy p = true ->
     loop <$> timers (final r) !! key p gameId = Some None /\
     forall tm h, timers w !! key p gameId = Some tm -> loop tm = Some h ->
       intervals (final r) !! h = None) /\
  Forall (fun g => le_gameId g ≠ gameId) (joinableGames (final r)) /\
  Forall (fun g => le_gameId g ≠ gameId) (watchableGames (final r)) /\
  hd_error (List.filter is_emission (output r)) =
    Some (IoEmit gameId (ev_gameOver resultData)) /\
  exists before,
    output r =
      (before ++
       [IoEmit gameId (ev_updateGame (Some (finalized resultData tw tb game)))])%list.
Proof.
  intros Hg Hf Htw Htb Hp1 Hp2 r. subst r. unfold stored in Hg.
  destruct (gameCollection w) as [db|] eqn:Hdb; [|done].
  unfold gameOver, gameOver_body, drop_from_lobby.
  unfold_handlers.
  rewrite Hdb. cbn. rewrite Hg. cbn. rewrite Htw. cbn. rewrite Htb. cbn.
  rewrite Hf. cbn.
  run_cases.
  all: simplify_eq.
  all: try (by absurd_lookup).
  all: split; [done|].
  all: split; [by rewrite lookup_insert_eq|].
  all: split; [by rewrite ?lookup_delete_eq|].
  all: split; [intros ts' Hts'; simplify_eq; split; unscheduled|].
  all: split;
    [ intros p Hp Htruthy; split;
      [ destruct Hp as [-> | ->]; solve [congruence | nulled]
      | intros tm h Htm Hh;
        repeat match goal with
        | H : <[_ := _]> _ !! _ = _ |- _ => rewrite lookup_insert in H; case_decide
        end;
        destruct Hp as [-> | ->]; simplify_eq; solve [congruence | unscheduled] ]
    | ].
  all: split; [apply Forall_filter_self|].
  all: split; [apply Forall_filter_self|].
  all: split; [done|].
  all: repeat rewrite app_comm_cons; eexists; reflexivity.
Qed.



(** X2. When the document is missing, or one of its seats has no clock
    entry (an empty seat reads [timers["null" + gameId]]), [gameOver]
    throws before it does anything: the memory is the one it was called
    in and nothing is emitted or written. *)
Theorem gameOver_fails_early (w : World) (gameId : string) (player1 player2 : jsval)
    (resultData : ResultData) :
  (stored w gameId = None \/
   exists game, stored w gameId = Some game /\
     (timers w !! key (p_username (white game)) gameId = None \/
      timers w !! key (p_username (black game)) gameId = None)) ->
  let r := gameOver gameId player1 player2 resultData w in
  (exists e, ended r = Throw e) /\
  final r = w /\
  output r = [Called_gameOver gameId player1 player2 resultData].
Proof.
  intros Hcase r. subst r.
  unfold gameOver, gameOver_body. unfold_handlers. unfold stored in Hcase.
  destruct (gameCollection w) as [db|] eqn:Hdb; cbn; [|eauto].
  destruct Hcase as [Hnone|(game & Hg & Hclock)].
  - rewrite Hnone. cbn. eauto.
  - rewrite Hg. cbn.
    destruct (timers w !! key (p_username (white game)) gameId) eqn:Hw; cbn; [|eauto].
    destruct Hclock as [?|Hb]; [done|]. rewrite Hb. cbn. eauto.
Qed.

(** Alice hosts alone: black's seat is empty. *)
Lemma gameOver_fails_early_witness :
  final (gameOver "g1" JNull JNull (mkResultData (JStr "abandonment") JNull)
           w_hosting) = w_hosting.
Proof.
  pose proof (gameOver_fails_early w_hosting "g1" JNull JNull
                (mkResultData (JStr "abandonment") JNull)) as Hrun.
  cbv zeta in Hrun. destruct Hrun as (_ & Hfinal & _); [|exact Hfinal].
  right. exists g_hosting. split; [vm_compute; reflexivity|].
  right. vm_compute. reflexivity.
Defined.

(** X3. A [resign] event from a connection whose user holds neither
    seat of their current game, or whose game is already finished, is
    ignored: memory unchanged, nothing emitted. *)
Theorem resign_is_for_seated_players (w : World) (socket : string) (game : Game) :
  stored w (resigned_game socket w) = Some game ->
  (resigner socket w ≠ p_username (white game) /\
   resigner socket w ≠ p_username (black game)) \/ finished game = true ->
  on_resign socket w = mkRun (Ret ()) w [].
Proof.
  intros Hg Hcase. unfold resigned_game, resigner, stored in *.
  destruct (gameCollection w) as [db|] eqn:Hdb; [|done].
  unfold on_resign, resign_body. unfold_handlers.
  rewrite Hdb. cbn. rewrite Hg. cbn.
  unfold strict_eq.
  destruct Hcase as [[Hw Hb]|Hfin].
  - rewrite !bool_decide_eq_false_2 by done. done.
  - rewrite Hfin. repeat case_bool_decide; done.
Qed.

(** Bob resigns a second time. *)
Lemma resign_is_for_seated_players_witness :
  on_resign "s2" w_resigned = mkRun (Ret ()) w_resigned [].
Proof.
  apply (resign_is_for_seated_players w_resigned "s2" g_resigned).
  - vm_compute. reflexivity.
  - right. reflexivity.
Defined.

(** X4. A [resign] event from a seated player of an unfinished session
    finalizes it with result [resignation] and the other seat as winner:
    the handler returns, the stored document is the finalized one, and the
    first emission is the [gameOver] event with that result. *)
Theorem resign_finalizes (w : World) (socket : string) (game : Game) (tw tb : Timer) :
  stored w (resigned_game socket w) = Some game ->
  finished game = false ->
  resigner socket w = p_username (white game) \/
  resigner socket w = p_username (black game) ->
  timers w !! key (p_username (white game)) (resigned_game socket w) = Some tw ->
  timers w !! key (p_username (black game)) (resigned_game socket w) = Some tb ->
  let winner :=
    if strict_eq (resigner socket w) (p_username (white game))
    then p_username (black game) else p_username (white game) in
  let r := on_resign socket w in
  ended r = Ret () /\
  stored (final r) (resigned_game socket w) =
    Some (finalized (mkResultData (JStr "resignation") winner) tw tb game) /\
  hd_error (List.filter is_emission (output r)) =
    Some (IoEmit (resigned_game socket w)
            (ev_gameOver (mkResultData (JStr "resignation") winner))).
Proof.
  intros Hg Hf Hseat Htw Htb winner r. subst r.
  assert (Hp : forall p, p = p_username (white game) \/ p = p_username (black game) ->
    is_Some (timers w !! key p (resigned_game socket w))).
  { intros p [-> | ->]; eauto. }
  pose proof (gameOver_run w (resigned_game socket w) (resigner socket w)
    winner (mkResultData (JStr "resignation") winner) game tw tb Hg Hf Htw Htb) as Hfin.
  cbv zeta in Hfin.
  destruct Hfin as (Hret & Hdoc & _ & _ & _ & _ & _ & Hhd & _).
  { intros _. apply Hp. done. }
  { intros _. apply Hp. subst winner. unfold strict_eq. case_bool_decide; auto. }
  unfold stored in Hg.
  destruct (gameCollection w) as [db|] eqn:Hdb; [|done].
  unfold on_resign, resign_body. unfold try_catch, getGame, deref, get.
  unfold mbind, M_bind, mret, M_ret. cbn.
  rewrite Hdb. cbn. fold (resigned_game socket w). rewrite Hg. cbn.
  fold (resigner socket w). rewrite Hf.
  assert (Hor : strict_eq (resigner socket w) (p_username (white game))
                || strict_eq (resigner socket w) (p_username (black game)) = true).
  { unfold strict_eq. destruct Hseat as [-> | ->];
      repeat case_bool_decide; done. }
  rewrite Hor. fold winner.
  destruct (gameOver _ _ _ _ w) as [e w' o]. cbn in *. subst e. cbn.
  done.
Qed.

(** Bob resigns right after taking his seat. *)
Lemma resign_finalizes_witness :
  ended (on_resign "s2" w_seated) = Ret () /\
  stored (final (on_resign "s2" w_seated)) (resigned_game "s2" w_seated) =
    Some (finalized
            (mkResultData (JStr "resignation")
               (if strict_eq (resigner "s2" w_seated) (p_username (white g_seated))
                then p_username (black g_seated) else p_username (white g_seated)))
            (mkTimer None (Some 60)) (mkTimer None (Some 60)) g_seated).
Proof.
  pose proof (resign_finalizes w_seated "s2" g_seated (mkTimer None (Some 60))
                (mkTimer None (Some 60))) as Hrun.
  cbv zeta in Hrun. destruct Hrun as (Hret & Hdoc & _).
  - vm_compute. reflexivity.
  - reflexivity.
  - right. vm_compute. reflexivity.
  - vm_compute. reflexivity.
  - vm_compute. reflexivity.
  - split; assumption.
Defined.

(** ** Connections and identities *)

(** X5. [disconnect] emits nothing and forgets exactly the
    connection: its [users] binding, the [sockets] binding of its
    username and its room memberships go; the user's current game, the
    clocks, the time sync schedules, the intervals, the store and the
    lobby lists stay as they are, so a session outlives the connection of
    its players. *)
Theorem disconnect_forgets_the_connection (w : World) (socket : string) :
  let r := on_disconnect socket w in
  (ended r = Ret () /\ output r = []) /\
  users (final r) = delete socket (users w) /\
  sockets (final r) = delete (to_str (prop (users w) socket)) (sockets w) /\
  (forall s room, (s, room) ∈ rooms (final r) <-> (s, room) ∈ rooms w /\ s ≠ socket) /\
  (currentGameId (final r) = currentGameId w /\
   timers (final r) = timers w /\
   timesync (final r) = timesync w /\
   intervals (final r) = intervals w /\
   gameCollection (final r) = gameCollection w /\
   joinableGames (final r) = joinableGames w /\
   watchableGames (final r) = watchableGames w).
Proof.
  cbv zeta. unfold on_disconnect, socket_leaveAll. unfold_handlers.
  split; [done|]. split; [done|]. split; [done|]. split; [|done].
  intros s room. rewrite elem_of_filter. cbn. tauto.
Qed.

(** X6. The [username] event always returns and binds the
    connection to a name in both directions: the claimed name when one is
    given, the generated one otherwise; when none is given, the only
    effect is the generated name sent back on the socket, and no room is
    joined. The current games, the clocks, the intervals and the store are
    never touched. *)
Theorem identity_claim_binds (w : World) (socket : string) (data_username : jsval)
    (random_username : string) :
  let name := claimed_name data_username random_username in
  let r := on_username socket data_username random_username w in
  ended r = Ret () /\
  users (final r) = <[socket := name]> (users w) /\
  sockets (final r) = <[name := socket]> (sockets w) /\
  (truthy data_username = false ->
   output r = [SocketEmit socket (ev_username random_username)] /\
   rooms (final r) = rooms w) /\
  (currentGameId (final r) = currentGameId w /\
   timers (final r) = timers w /\
   intervals (final r) = intervals w /\
   gameCollection (final r) = gameCollection w).
Proof.
  cbv zeta. unfold claimed_name.
  unfold on_username, username_body, userTimeSync.
  destruct (truthy data_username) eqn:Htruthy; cbn [negb].
  - unfold_handlers. run_cases. all: repeat split; done.
  - unfold_handlers. repeat split; done.
Qed.

Lemma truthy_JStr (s : string) : s ≠ "" -> truthy (JStr s) = true.
Proof. intros Hs. cbn. destruct (String.eqb_spec s ""); done. Qed.

(** The run of [username] for a name whose current game is stored and
    unfinished. *)
Lemma reconnect_unfinished_run (w : World) (socket name random gameId : string)
    (game : Game) :
  name ≠ "" -> gameId ≠ "" ->
  currentGameId w !! name = Some gameId ->
  stored w gameId = Some game ->
  finished game = false ->
  on_username socket (JStr name) random w =
    mkRun (Ret ()) (rejoined socket name gameId w) (replay socket name gameId game w).
Proof.
  intros Hname Hgid Hcur Hg Hf. unfold stored in Hg.
  destruct (gameCollection w) as [db|] eqn:Hdb; [|done].
  unfold on_username, username_body, replay, rejoined.
  rewrite (truthy_JStr name Hname). unfold_handlers.
  unfold prop. rewrite Hcur. cbn.
  rewrite (proj2 (String.eqb_neq gameId "") Hgid). cbn.
  rewrite Hdb. cbn. rewrite Hg. cbn. rewrite Hf. cbn.
  rewrite lookup_insert_eq.
  destruct (playerReceivedLastmove w !! (name +:+ gameId)) as [[|]|]; done.
Qed.

(** X7. A user who claims a name that has a current, unfinished
    game is put back into the game's room and into a private room of the
    new connection; the last move and the document are replayed to that
    private room unless that user has acknowledged the last move, in which
    case nothing is emitted. *)
Theorem reconnect_replays_what_was_missed (w : World)
    (socket name random gameId : string) (game : Game) :
  name ≠ "" -> gameId ≠ "" ->
  currentGameId w !! name = Some gameId ->
  stored w gameId = Some game ->
  finished game = false ->
  let r := on_username socket (JStr name) random w in
  let room := userRoom (JStr name) (JStr socket) gameId in
  ended r = Ret () /\
  (socket, gameId) ∈ rooms (final r) /\
  (socket, room) ∈ rooms (final r) /\
  (playerReceivedLastmove w !! (name +:+ gameId) = Some true -> output r = []) /\
  (playerReceivedLastmove w !! (name +:+ gameId) ≠ Some true ->
   output r = [IoEmit room (ev_moved (lastMoveFromGame w !! gameId));
               IoEmit room (ev_updateGame (Some game))]).
Proof.
  intros Hname Hgid Hcur Hg Hf r room. subst r room.
  rewrite (reconnect_unfinished_run w socket name random gameId game) by done.
  cbn. unfold replay. repeat split.
  - set_solver.
  - set_solver.
  - intros ->. done.
  - intros Hne. destruct (playerReceivedLastmove w !! (name +:+ gameId)) as [[|]|]; done.
Qed.

(** Bob comes back on a new connection after 1. e4 e5. *)
Lemma reconnect_replays_what_was_missed_witness :
  output (on_username "s3" (JStr "bob") "" w_replied) =
    [IoEmit (userRoom (JStr "bob") (JStr "s3") "g1")
       (ev_moved (lastMoveFromGame w_replied !! "g1"));
     IoEmit (userRoom (JStr "bob") (JStr "s3") "g1")
       (ev_updateGame (Some g_replied))].
Proof.
  pose proof (reconnect_replays_what_was_missed w_replied "s3" "bob" "" "g1"
                g_replied) as Hrun.
  cbv zeta in Hrun. destruct Hrun as (_ & _ & _ & _ & Hreplay).
  - discriminate.
  - discriminate.
  - vm_compute. reflexivity.
  - vm_compute. reflexivity.
  - reflexivity.
  - apply Hreplay. vm_compute. discriminate.
Defined.

(** X8. [moveAck] followed by a reconnection: once a user has
    acknowledged the last move of their current game, claiming the name
    again (on any connection) emits nothing. *)
Theorem acknowledged_move_is_not_replayed (w : World)
    (socket socket' name random gameId : string) (game : Game) :
  name ≠ "" -> gameId ≠ "" ->
  users w !! socket = Some name ->
  currentGameId w !! name = Some gameId ->
  stored w gameId = Some game ->
  finished game = false ->
  output (on_username socket' (JStr name) random (final (on_moveAck socket w))) = [].
Proof.
  intros Hname Hgid Hu Hcur Hg Hf.
  assert (Hack : final (on_moveAck socket w) =
    set_playerReceivedLastmove
      (<[name +:+ gameId := true]> (playerReceivedLastmove w)) w).
  { unfold on_moveAck. unfold_handlers. unfold prop. rewrite Hu. cbn.
    rewrite Hcur. done. }
  rewrite Hack.
  rewrite (reconnect_unfinished_run _ socket' name random gameId game) by done.
  cbn. unfold replay. cbn. by rewrite lookup_insert_eq.
Qed.

(** Bob acknowledges 1... e5 and comes back. *)
Lemma acknowledged_move_is_not_replayed_witness :
  output (on_username "s3" (JStr "bob") "" (final (on_moveAck "s2" w_replied))) = [].
Proof.
  apply (acknowledged_move_is_not_replayed w_replied "s2" "s3" "bob" "" "g1"
           g_replied).
  - discriminate.
  - discriminate.
  - vm_compute. reflexivity.
  - vm_compute. reflexivity.
  - vm_compute. reflexivity.
  - reflexivity.
Defined.

(** X9. A user who comes back to a game that finished meanwhile
    (its clock entries still in place) is sent, to the private room of the new connection, the recorded result
    and the last clock readings clamped at zero, followed by the replay of
    the last move if it was not acknowledged. *)
Theorem reconnect_to_finished_game (w : World)
    (socket name random gameId : string) (game : Game) (tw tb : Timer) :
  name ≠ "" -> gameId ≠ "" ->
  currentGameId w !! name = Some gameId ->
  stored w gameId = Some game ->
  finished game = true ->
  timers w !! key (p_username (white game)) gameId = Some tw ->
  timers w !! key (p_username (black game)) gameId = Some tb ->
  let room := userRoom (JStr name) (JStr socket) gameId in
  on_username socket (JStr name) random w =
    mkRun (Ret ()) (rejoined socket name gameId w)
      ([IoEmit room
          (ev_gameOver (mkResultData (result_description game) (result_winner game)));
        IoEmit room
          (ev_timesync gameId
             [(to_str (p_username (white game)), js_max 0 (time tw));
              (to_str (p_username (black game)), js_max 0 (time tb))])] ++
       replay socket name gameId game w)%list.
Proof.
  intros Hname Hgid Hcur Hg Hf Htw Htb room. subst room. unfold stored in Hg.
  destruct (gameCollection w) as [db|] eqn:Hdb; [|done].
  unfold on_username, username_body, userTimeSync, replay, rejoined.
  rewrite (truthy_JStr name Hname). unfold_handlers.
  unfold prop. rewrite Hcur. cbn.
  rewrite (proj2 (String.eqb_neq gameId "") Hgid). cbn.
  rewrite Hdb. cbn. rewrite Hg. cbn. rewrite Hf. cbn.
  rewrite Hcur. cbn. rewrite Htw. cbn. rewrite Htb. cbn.
  rewrite lookup_insert_eq.
  destruct (playerReceivedLastmove w !! (name +:+ gameId)) as [[|]|]; done.
Qed.

(** Bob comes back after his resignation. *)
Lemma reconnect_to_finished_game_witness :
  List.filter is_emission (output (on_username "s3" (JStr "bob") "" w_resigned)) =
    ([IoEmit (userRoom (JStr "bob") (JStr "s3") "g1")
        (ev_gameOver (mkResultData (JStr "resignation") (JStr "alice")));
      IoEmit (userRoom (JStr "bob") (JStr "s3") "g1")
        (ev_timesync "g1" [("alice", Some 60); ("bob", Some 60)])] ++
     replay "s3" "bob" "g1" g_resigned w_resigned)%list.
Proof.
  pose proof (reconnect_to_finished_game w_resigned "s3" "bob" "" "g1" g_resigned
                (mkTimer None (Some 60)) (mkTimer None (Some 60))) as Hrun.
  cbv zeta in Hrun. rewrite Hrun.
  - vm_compute. reflexivity.
  - discriminate.
  - discriminate.
  - vm_compute. reflexivity.
  - vm_compute. reflexivity.
  - reflexivity.
  - vm_compute. reflexivity.
  - vm_compute. reflexivity.
Defined.

(** ** Liveness *)

(** X10. A liveness check (the [ackLoop] of [newGame] and that of
    [joinGame]) does nothing at all while every watched player's last
    acknowledgement is at most [TIMESYNC_TIMEOUT] old; a difference of
    exactly [TIMESYNC_TIMEOUT] still counts as alive. *)
Theorem liveness_check_within_window (w : World) (now : Z) (gameId : string)
    (ts : TimeSync) :
  timesync w !! gameId = Some ts ->
  (forall username last,
     lastTimeSync ts !! to_str username = Some last -> recent now last ->
     host_ackLoop_cb now gameId username w = mkRun (Ret ()) w []) /\
  (forall whiteUsername blackUsername lastW lastB,
     lastTimeSync ts !! to_str whiteUsername = Some lastW ->
     lastTimeSync ts !! to_str blackUsername = Some lastB ->
     recent now lastW -> recent now lastB ->
     game_ackLoop_cb now gameId whiteUsername blackUsername w = mkRun (Ret ()) w []).
Proof.
  intros Hts. unfold recent. split.
  - intros u last Hlast Hfresh. unfold host_ackLoop_cb. unfold_handlers.
    rewrite Hts. cbn. rewrite Hlast. cbn.
    replace (Z.abs (now - last) >? TIMESYNC_TIMEOUT) with false; [done|].
    symmetry. rewrite Z.gtb_ltb. apply Z.ltb_ge. done.
  - intros wu bu lw lb Hw Hb Hfw Hfb. unfold game_ackLoop_cb. unfold_handlers.
    rewrite Hts. cbn. rewrite Hw. cbn.
    replace (Z.abs (now - lw) >? TIMESYNC_TIMEOUT) with false
      by (symmetry; rewrite Z.gtb_ltb; apply Z.ltb_ge; done).
    cbn. rewrite Hb. cbn.
    replace (Z.abs (now - lb) >? TIMESYNC_TIMEOUT) with false
      by (symmetry; rewrite Z.gtb_ltb; apply Z.ltb_ge; done).
    done.
Qed.

(** 100 seconds after the game was opened. *)
Lemma liveness_check_within_window_witness :
  game_ackLoop_cb 100000 "g1" (JStr "alice") (JStr "bob") w_seated =
    mkRun (Ret ()) w_seated [].
Proof.
  destruct (liveness_check_within_window w_seated 100000 "g1"
              (mkTimeSync 2 (<["bob" := 10]> {["alice" := 0]}) 3))
    as [_ Hgame].
  - vm_compute. reflexivity.
  - apply (Hgame (JStr "alice") (JStr "bob") 0 10).
    + vm_compute. reflexivity.
    + vm_compute. reflexivity.
    + unfold recent, TIMESYNC_TIMEOUT. lia.
    + unfold recent, TIMESYNC_TIMEOUT. lia.
Defined.

(** X11. [syncAck] from a user with a current game emits nothing;
    without a time sync entry for that game it changes nothing; otherwise it stamps the
    sender in that entry, leaving its intervals alone, after which a host
    liveness check within the window is a no-op. *)
Theorem syncAck_refreshes_the_sender (w : World) (socket name gameId : string)
    (now : Z) :
  users w !! socket = Some name ->
  currentGameId w !! name = Some gameId ->
  let r := on_syncAck socket now w in
  (ended r = Ret () /\ output r = []) /\
  (timesync w !! gameId = None -> final r = w) /\
  (forall ts, timesync w !! gameId = Some ts ->
     timesync (final r) =
       <[gameId := mkTimeSync (mainLoop ts) (<[name := now]> (lastTimeSync ts))
                     (ackLoop ts)]> (timesync w) /\
     forall now', recent now' now ->
       host_ackLoop_cb now' gameId (JStr name) (final r) =
         mkRun (Ret ()) (final r) []).
Proof.
  intros Hu Hcur r. subst r.
  unfold on_syncAck. unfold_handlers. unfold prop. rewrite Hu. cbn.
  rewrite Hcur. cbn.
  destruct (timesync w !! gameId) as [ts|] eqn:Hts; cbn.
  - split; [done|]. split; [done|]. intros ts' [= <-]. split; [done|].
    intros now' Hfresh. unfold host_ackLoop_cb. unfold_handlers.
    rewrite lookup_insert_eq. cbn. rewrite lookup_insert_eq. cbn.
    unfold recent in Hfresh.
    replace (Z.abs (now' - now) >? TIMESYNC_TIMEOUT) with false; [done|].
    symmetry. rewrite Z.gtb_ltb. apply Z.ltb_ge. done.
  - split; [done|]. split; [done|]. intros ts' [=].
Qed.

(** Bob acknowledges a time sync. *)
Lemma syncAck_refreshes_the_sender_witness :
  ended (on_syncAck "s2" 50 w_seated) = Ret () /\
  output (on_syncAck "s2" 50 w_seated) = [].
Proof.
  pose proof (syncAck_refreshes_the_sender w_seated "s2" "bob" "g1" 50) as Hrun.
  cbv zeta in Hrun. destruct Hrun as (Hquiet & _).
  - vm_compute. reflexivity.
  - vm_compute. reflexivity.
  - exact Hquiet.
Defined.

(** ** Abandonment *)

(** On a finished session with its clock entries in place, [gameOver]
    returns and does nothing. *)
Lemma gameOver_on_finished (w : World) (gameId : string) (player1 player2 : jsval)
    (resultData : ResultData) (game : Game) :
  stored w gameId = Some game ->
  finished game = true ->
  is_Some (timers w !! key (p_username (white game)) gameId) ->
  is_Some (timers w !! key (p_username (black game)) gameId) ->
  gameOver gameId player1 player2 resultData w =
    mkRun (Ret ()) w [Called_gameOver gameId player1 player2 resultData].
Proof.
  intros Hg Hf [tw Htw] [tb Htb]. unfold stored in Hg.
  destruct (gameCollection w) as [db|] eqn:Hdb; [|done].
  unfold gameOver, gameOver_body. unfold_handlers.
  rewrite Hdb. cbn. rewrite Hg. cbn. rewrite Htw. cbn. rewrite Htb. cbn.
  rewrite Hf. done.
Qed.

(** X12. The liveness check of a seated, unfinished game returns
    and leaves the document untouched when both stamps are within the
    window; it awards the game to white when only black's stamp is stale;
    and it awards the game to black whenever white's stamp is stale, also
    when both are. *)
Theorem abandoned_seat_forfeits (w : World) (now : Z) (gameId : string)
    (game : Game) (ts : TimeSync) (lastW lastB : Z) (tw tb : Timer) :
  stored w gameId = Some game ->
  finished game = false ->
  timers w !! key (p_username (white game)) gameId = Some tw ->
  timers w !! key (p_username (black game)) gameId = Some tb ->
  timesync w !! gameId = Some ts ->
  lastTimeSync ts !! to_str (p_username (white game)) = Some lastW ->
  lastTimeSync ts !! to_str (p_username (black game)) = Some lastB ->
  let r := game_ackLoop_cb now gameId (p_username (white game))
             (p_username (black game)) w in
  let forfeit winner :=
    finalized (mkResultData (JStr "abandonment") winner) tw tb game in
  ended r = Ret () /\
  stored (final r) gameId =
    Some (if bool_decide (recent now lastW)
          then if bool_decide (recent now lastB) then game
               else forfeit (p_username (white game))
          else forfeit (p_username (black game))).
Proof.
  intros Hg Hf Htw Htb Hts HlW HlB r forfeit. subst r forfeit.
  unfold recent.
  unfold game_ackLoop_cb. unfold_handlers. rewrite Hts. cbn. rewrite HlW. cbn.
  destruct (Z.gtb_spec (Z.abs (now - lastW)) TIMESYNC_TIMEOUT) as [HW|HW]; cbn.
  - rewrite bool_decide_eq_false_2 by lia.
    pose proof (gameOver_run w gameId (p_username (white game))
                  (p_username (black game))
                  (mkResultData (JStr "abandonment") (p_username (black game)))
                  game tw tb Hg Hf Htw Htb (fun _ => mk_is_Some _ _ Htw)
                  (fun _ => mk_is_Some _ _ Htb)) as (Hret & Hdoc & _).
    destruct (gameOver_keeps_time (key (p_username (white game)) gameId)
                (Some (time tw)) gameId (p_username (white game))
                (p_username (black game))
                (mkResultData (JStr "abandonment") (p_username (black game))) w)
      as (HkW & _); [by rewrite Htw|].
    destruct (gameOver_keeps_time (key (p_username (black game)) gameId)
                (Some (time tb)) gameId (p_username (white game))
                (p_username (black game))
                (mkResultData (JStr "abandonment") (p_username (black game))) w)
      as (HkB & _); [by rewrite Htb|].
    cbv zeta in *.
    destruct (gameOver _ _ _ _ w) as [[[]|e] w1 o1]; cbn in *; [|done].
    rewrite HlB. cbn.
    destruct (Z.abs (now - lastB) >? TIMESYNC_TIMEOUT); cbn; [|done].
    rewrite (gameOver_on_finished w1 gameId _ _ _ _ Hdoc); cbn; [done|done|..].
    + destruct (timers w1 !! key (p_username (white game)) gameId); [done|done].
    + destruct (timers w1 !! key (p_username (black game)) gameId); [done|done].
  - rewrite bool_decide_eq_true_2 by lia. rewrite HlB. cbn.
    destruct (Z.gtb_spec (Z.abs (now - lastB)) TIMESYNC_TIMEOUT) as [HB|HB]; cbn.
    + rewrite bool_decide_eq_false_2 by lia.
      pose proof (gameOver_run w gameId (p_username (white game))
                    (p_username (black game))
                    (mkResultData (JStr "abandonment") (p_username (white game)))
                    game tw tb Hg Hf Htw Htb (fun _ => mk_is_Some _ _ Htw)
                    (fun _ => mk_is_Some _ _ Htb)) as (Hret & Hdoc & _).
      cbv zeta in *.
      destruct (gameOver _ _ _ _ w) as [[[]|e] w1 o1]; cbn in *; done.
    + rewrite bool_decide_eq_true_2 by lia. done.
Qed.

(** Both players silent for 200 seconds: black is awarded the game. *)
Lemma abandoned_seat_forfeits_witness :
  stored (final (game_ackLoop_cb 200000 "g1" (p_username (white g_seated))
                   (p_username (black g_seated)) w_seated)) "g1" =
    Some (if bool_decide (recent 200000 0)
          then if bool_decide (recent 200000 10) then g_seated
               else finalized
                      (mkResultData (JStr "abandonment") (p_username (white g_seated)))
                      (mkTimer None (Some 60)) (mkTimer None (Some 60)) g_seated
          else finalized
                 (mkResultData (JStr "abandonment") (p_username (black g_seated)))
                 (mkTimer None (Some 60)) (mkTimer None (Some 60)) g_seated).
Proof.
  pose proof (abandoned_seat_forfeits w_seated 200000 "g1" g_seated
                (mkTimeSync 2 (<["bob" := 10]> {["alice" := 0]}) 3) 0 10
                (mkTimer None (Some 60)) (mkTimer None (Some 60))) as Hrun.
  cbv zeta in Hrun. destruct Hrun as (_ & Hdoc).
  - vm_compute. reflexivity.
  - reflexivity.
  - vm_compute. reflexivity.
  - vm_compute. reflexivity.
  - vm_compute. reflexivity.
  - vm_compute. reflexivity.
  - vm_compute. reflexivity.
  - exact Hdoc.
Defined.

(** ** Moves *)



(** X14. A legal [move] sent under a username that has no clock
    entry for the game is half done: the document already carries the new
    position and the move was broadcast to the room before the handler
    faults on [timers[username+gameId]]; no clock is touched and no
    [updateGame] follows. *)
Theorem move_without_clock_is_half_done `{Rules} (w : World) (socket : string)
    (movedata : MoveData) (db : gmap string Game) (game : Game) (c : Chess) :
  gameCollection w = Some db ->
  db !! md_gameId movedata = Some game ->
  finished game = false ->
  load_and_move (pgn game) (md_move movedata) = Some c ->
  timers w !! key (JStr (md_username movedata)) (md_gameId movedata) = None ->
  on_move socket movedata w =
    mkRun (Ret ())
      (marked movedata game
         (set_gameCollection
            (Some (<[md_gameId movedata := moved_on (md_move movedata) c game]> db)) w))
      [DbUpdate (md_gameId movedata)
         [state_fen (c_fen c); state_lastMove (md_move movedata);
          history_pgn (c_pgn c); history_moves (c_history c)];
       IoEmit (md_gameId movedata) (ev_moved (Some movedata));
       ConsoleLog (TypeError "timers[k]")].
Proof.
  intros Hdb Hg Hf Hc Htm.
  unfold on_move, move_body. unfold_handlers.
  rewrite Hdb. cbn. rewrite Hg. cbn. rewrite Hf, Hc. cbn.
  rewrite Hdb. cbn. rewrite Hg. cbn. rewrite Htm. cbn.
  unfold marked. cbn. rewrite ?Hf. done.
Qed.

(** Carol, who has no seat, sends a move for the game. *)
Lemma move_without_clock_is_half_done_witness :
  List.filter is_emission
    (output (on_move (H := scripted) "s3" (says "carol" "e4") w_seated)) =
    [IoEmit "g1" (ev_moved (Some (says "carol" "e4")))].
Proof.
  rewrite (move_without_clock_is_half_done (H := scripted) w_seated "s3"
             (says "carol" "e4") {["g1" := g_seated]} g_seated
             (mkChess "fen after e4" "e4 " ["e4"] false false false false false
                false)).
  - reflexivity.
  - vm_compute. reflexivity.
  - vm_compute. reflexivity.
  - reflexivity.
  - vm_compute. reflexivity.
  - vm_compute. reflexivity.
Defined.

(** [gameOver] leaves the pending marks and the last moves alone. *)
Lemma gameOver_keeps_marks m l gameId player1 player2 resultData :
  triple (fun w => playerReceivedLastmove w = m /\ lastMoveFromGame w = l)
    (fun _ => True) (gameOver gameId player1 player2 resultData) (fun _ => True).
Proof.
  unfold gameOver, gameOver_body.
  triple_auto fail ltac:(cbn in *; try done; try (repeat constructor; done)).
Qed.

(** X15. After a [move] the rules library accepted, whatever
    happens later in the handler, the move is recorded as the last move of
    its game and is pending for both seats, and the first emission is the
    [moved] broadcast to the game room. *)
Theorem accepted_move_is_pending `{Rules} (w : World) (socket : string)
    (movedata : MoveData) (game : Game) (c : Chess) :
  stored w (md_gameId movedata) = Some game ->
  finished game = false ->
  load_and_move (pgn game) (md_move movedata) = Some c ->
  let r := on_move socket movedata w in
  lastMoveFromGame (final r) !! md_gameId movedata = Some movedata /\
  playerReceivedLastmove (final r)
    !! key (p_username (white game)) (md_gameId movedata) = Some false /\
  playerReceivedLastmove (final r)
    !! key (p_username (black game)) (md_gameId movedata) = Some false /\
  hd_error (List.filter is_emission (output r)) =
    Some (IoEmit (md_gameId movedata) (ev_moved (Some movedata))).
Proof.
  intros Hg Hf Hc r. subst r. unfold stored in Hg.
  destruct (gameCollection w) as [db|] eqn:Hdb; [|done].
  destruct movedata as [username gameId fen0 move]. cbn in *.
  unfold on_move, move_body. unfold_handlers.
  rewrite Hdb. cbn. rewrite Hg. cbn. rewrite Hf, Hc. cbn.
  rewrite Hdb. cbn. rewrite Hg. cbn.
  repeat match goal with
  | |- context [gameOver ?a ?b ?c ?d ?w0] =>
      pose proof (proj1 (gameOver_keeps_marks (playerReceivedLastmove w0)
                           (lastMoveFromGame w0) a b c d w0 (conj eq_refl eq_refl)))
        as [Hm Hl];
      destruct (gameOver a b c d w0) as [[?|?] ? ?]; cbn in *
  | |- context [match ?x with _ => _ end] =>
      let y := innermost x in destruct y eqn:?; cbn in *
  end.
  all: rewrite ?Hm, ?Hl.
  all: split; [by rewrite lookup_insert_eq|].
  all: split; [by rewrite lookup_insert_eq|].
  all: split; [|done].
  all: rewrite lookup_insert; case_decide; [done|by rewrite lookup_insert_eq].
Qed.

(** Alice opens with 1. e4. *)
Lemma accepted_move_is_pending_witness :
  lastMoveFromGame (final (on_move (H := scripted) "s1" (says "alice" "e4") w_seated))
    !! md_gameId (says "alice" "e4") = Some (says "alice" "e4").
Proof.
  pose proof (accepted_move_is_pending (H := scripted) w_seated "s1"
                (says "alice" "e4") g_seated
                (mkChess "fen after e4" "e4 " ["e4"] false false false false false
                   false)) as Hrun.
  cbv zeta in Hrun. destruct Hrun as (Hlast & _).
  - vm_compute. reflexivity.
  - reflexivity.
  - vm_compute. reflexivity.
  - exact Hlast.
Defined.



(** ** A clock, period after period *)

Lemma world_timers_id (w : World) : set_timers (timers w) w = w.
Proof. by destruct w. Qed.

(** Handling [l1 ++ l2] is handling [l1], then [l2]. *)
Lemma run_app `{Rules} (l1 l2 : list input) (w : World) :
  run (l1 ++ l2)%list w = (_ ← run l1; run l2) w.
Proof.
  revert w. induction l1 as [|i l1 IH]; intros w; cbn.
  - unfold mbind, M_bind, mret, M_ret. by destruct (run l2 w).
  - unfold mbind, M_bind in *.
    destruct (step i w) as [[[]|e] w1 o1]; [|done].
    rewrite IH.
    destruct (run l1 w1) as [[[]|e] w2 o2]; [|done].
    destruct (run l2 w2) as [e3 w3 o3]. by rewrite app_assoc.
Qed.

(** One period on a clock reading at least [1]. *)
Lemma silent_tick (w : World) (now : Z) (h : nat) (gameId username : string)
    (opponent : jsval) (tm : Timer) (t : Z) :
  intervals w !! h = Some (decrement_loop gameId username opponent) ->
  timers w !! key opponent gameId = Some tm ->
  time tm = Some t ->
  1 <= t ->
  fire now h w =
    mkRun (Ret ())
      (set_timers (<[key opponent gameId := mkTimer (loop tm) (Some (t - 1))]>
                     (timers w)) w) [].
Proof.
  intros Hh Hk Ht Hpos.
  unfold fire, try_catch. unfold_handlers. rewrite Hh. cbn.
  unfold decrement_loop_cb. unfold_handlers.
  rewrite Hk. cbn. rewrite lookup_insert_eq. cbn. rewrite Ht. cbn.
  rewrite Z.max_r by lia.
  destruct (t - 1 <=? -1) eqn:Hle; [lia|]. done.
Qed.

(** As many periods as the clock reads, or fewer. *)
Lemma silent_ticks `{Rules} (nows : list Z) (w : World) (h : nat)
    (gameId username : string) (opponent : jsval) (tm : Timer) (t : Z) :
  intervals w !! h = Some (decrement_loop gameId username opponent) ->
  timers w !! key opponent gameId = Some tm ->
  time tm = Some t ->
  Z.of_nat (length nows) <= t ->
  run (ticking h nows) w =
    mkRun (Ret ())
      (set_timers
         (<[key opponent gameId :=
              mkTimer (loop tm) (Some (t - Z.of_nat (length nows)))]> (timers w)) w)
      [].
Proof.
  revert w tm t. induction nows as [|now nows IH]; intros w tm t Hh Hk Ht Hlen.
  - cbn. rewrite Z.sub_0_r, <- Ht.
    replace (mkTimer (loop tm) (time tm)) with tm by (by destruct tm).
    rewrite insert_id by done. by rewrite world_timers_id.
  - cbn [ticking map run step length] in *.
    unfold mbind at 1. unfold M_bind.
    rewrite (silent_tick w now h gameId username opponent tm t) by (done || lia).
    fold (ticking h nows).
    rewrite (IH _ (mkTimer (loop tm) (Some (t - 1))) (t - 1));
      [|done|cbn; by rewrite lookup_insert_eq|done|lia].
    cbn. rewrite insert_insert_eq.
    replace (t - 1 - Z.of_nat (length nows)) with (t - Z.of_nat (S (length nows)))
      by lia.
    by destruct w.
Qed.

(** X17. [n] consecutive periods of a decrement loop on a clock reading
    [t >= n] are silent: nothing is emitted, [gameOver] is not entered, the
    clock reads [t - n] and no other clock, interval or document
    changes. *)
Theorem clock_counts_down `{Rules} (nows : list Z) (w : World) (h : nat)
    (gameId username : string) (opponent : jsval) (tm : Timer) (t : Z) :
  intervals w !! h = Some (decrement_loop gameId username opponent) ->
  timers w !! key opponent gameId = Some tm ->
  time tm = Some t ->
  Z.of_nat (length nows) <= t ->
  let r := run (ticking h nows) w in
  ended r = Ret () /\
  output r = [] /\
  timers (final r) !! key opponent gameId =
    Some (mkTimer (loop tm) (Some (t - Z.of_nat (length nows)))) /\
  (forall k, k ≠ key opponent gameId -> timers (final r) !! k = timers w !! k) /\
  intervals (final r) = intervals w /\
  gameCollection (final r) = gameCollection w.
Proof.
  intros Hh Hk Ht Hlen r. subst r.
  rewrite (silent_ticks nows w h gameId username opponent tm t) by done. cbn.
  split; [done|]. split; [done|]. split; [by rewrite lookup_insert_eq|].
  split; [|done]. intros k Hne. by rewrite lookup_insert_ne.
Qed.

(** Three seconds on alice's clock. *)
Lemma clock_counts_down_witness :
  output (run (H := scripted) (ticking 4 [1000; 2000; 3000]) w_replied) = [] /\
  timers (final (run (H := scripted) (ticking 4 [1000; 2000; 3000]) w_replied))
    !! key (JStr "alice") "g1" =
    Some (mkTimer (loop (mkTimer (Some 4%nat) (Some 60)))
            (Some (60 - Z.of_nat (length [1000; 2000; 3000])))).
Proof.
  pose proof (clock_counts_down (H := scripted) [1000; 2000; 3000] w_replied 4
                "g1" "bob" (JStr "alice") (mkTimer (Some 4%nat) (Some 60)) 60)
    as Hrun.
  cbv zeta in Hrun. destruct Hrun as (_ & Hquiet & Hreads & _).
  - vm_compute. reflexivity.
  - vm_compute. reflexivity.
  - reflexivity.
  - cbn. lia.
  - split; assumption.
Defined.

(** X18. A clock reading [t >= 0] runs out on period [t + 1], not
    on period [t]: over [t + 1] consecutive periods of its decrement loop
    [gameOver] is entered exactly once, with result [ontime] and the
    loop's mover as winner. *)
Theorem clock_expires_one_tick_late `{Rules} (nows : list Z) (w : World) (h : nat)
    (gameId username : string) (opponent : jsval) (tm : Timer) (t : Z) :
  intervals w !! h = Some (decrement_loop gameId username opponent) ->
  timers w !! key opponent gameId = Some tm ->
  time tm = Some t ->
  Z.of_nat (length nows) = t ->
  forall now,
  List.filter is_call (output (run (ticking h (nows ++ [now])) w)) =
    [Called_gameOver gameId (JStr username) opponent
       (mkResultData (JStr "ontime") (JStr username))].
Proof.
  intros Hh Hk Ht Hlen now.
  unfold ticking. rewrite map_app. rewrite run_app.
  unfold mbind at 1. unfold M_bind.
  fold (ticking h nows).
  rewrite (silent_ticks nows w h gameId username opponent tm t) by (done || lia).
  rewrite Hlen, Z.sub_diag.
  cbn [map run step]. unfold mbind at 1. unfold M_bind.
  unfold fire, try_catch. unfold_handlers. rewrite Hh. cbn.
  unfold decrement_loop_cb. unfold_handlers.
  rewrite lookup_insert_eq. cbn. rewrite lookup_insert_eq. cbn.
  change (Z.max (-1) (0 - 1)) with (-1). cbn.
  match goal with
  | |- context [gameOver ?a ?b ?c ?d ?w0] =>
      pose proof (gameOver_calls a b c d w0) as Hcalls;
      destruct (gameOver a b c d w0) as [[[]|e] w1 o1]
  end; cbn in *.
  - by rewrite app_nil_r.
  - rewrite app_nil_r, List.filter_app, Hcalls. cbn. done.
Qed.

(** Alice's 60 seconds run out on the 61st period. *)
Lemma clock_expires_one_tick_late_witness :
  List.filter is_call
    (output (run (H := scripted) (ticking 4 (replicate 60 1000 ++ [61000]))
               w_replied)) =
    [Called_gameOver "g1" (JStr "bob") (JStr "alice")
       (mkResultData (JStr "ontime") (JStr "bob"))].
Proof.
  apply (clock_expires_one_tick_late (H := scripted) (replicate 60 1000) w_replied
           4 "g1" "bob" (JStr "alice") (mkTimer (Some 4%nat) (Some 60)) 60).
  - vm_compute. reflexivity.
  - vm_compute. reflexivity.
  - reflexivity.
  - vm_compute. reflexivity.
Defined.

(** X19. A clock that holds no number (a time control the
    table [seconds] does not list) never runs out: any number of periods
    of its decrement loop leaves the memory unchanged and emits
    nothing. *)
Theorem clock_without_number_never_expires `{Rules} (nows : list Z) (w : World)
    (h : nat) (gameId username : string) (opponent : jsval) (tm : Timer) :
  intervals w !! h = Some (decrement_loop gameId username opponent) ->
  timers w !! key opponent gameId = Some tm ->
  time tm = None ->
  run (ticking h nows) w = mkRun (Ret ()) w [].
Proof.
  intros Hh Hk Ht. induction nows as [|now nows IH]; [done|].
  cbn [ticking map run step].
  unfold mbind at 1. unfold M_bind.
  assert (Hfire : fire now h w = mkRun (Ret ()) w []).
  { unfold fire, try_catch. unfold_handlers. rewrite Hh. cbn.
    unfold decrement_loop_cb. unfold_handlers.
    rewrite Hk. cbn. rewrite lookup_insert_eq. cbn. rewrite Ht. cbn.
    rewrite <- Ht.
    replace (mkTimer (loop tm) (time tm)) with tm by (by destruct tm).
    rewrite insert_id by done. by rewrite world_timers_id. }
  rewrite Hfire. fold (ticking h nows). by rewrite IH.
Qed.

(** A game under the time control 2+1. *)
Lemma clock_without_number_never_expires_witness :
  run (H := scripted) (ticking 4 [1000; 2000]) w_untimed =
    mkRun (Ret ()) w_untimed [].
Proof.
  apply (clock_without_number_never_expires (H := scripted) [1000; 2000] w_untimed
           4 "g1" "bob" (JStr "alice") (mkTimer (Some 4%nat) None)).
  - vm_compute. reflexivity.
  - vm_compute. reflexivity.
  - reflexivity.
Defined.

(** ** Opening and joining a session *)

(** X20. When the store is not connected or refuses the insert,
    [newGame] leaves the memory unchanged, logs the error and answers the
    requester with the [gameCreated] error. *)
Theorem newGame_failure_is_atomic (w : World) (socket timeControl insertedId : string)
    (heads : bool) (now : Z) :
  (gameCollection w = None \/
   exists game, stored w insertedId = Some game) ->
  exists e,
    on_newGame socket timeControl heads insertedId now w =
      mkRun (Ret ()) w [ConsoleLog e; SocketEmit socket ev_gameCreated_error].
Proof.
  intros Hcase. unfold stored in Hcase. unfold_handlers.
  destruct (gameCollection w) as [db|] eqn:Hdb; cbn; [|eauto].
  destruct Hcase as [|[game Hg]]; [done|]. rewrite Hg. cbn. eauto.
Qed.

(** The store already holds a document with that id. *)
Lemma newGame_failure_is_atomic_witness :
  exists e,
    on_newGame "s2" "5+0" false "g1" 20 w_hosting =
      mkRun (Ret ()) w_hosting [ConsoleLog e; SocketEmit "s2" ev_gameCreated_error].
Proof.
  apply (newGame_failure_is_atomic w_hosting "s2" "5+0" "g1" false 20).
  right. exists g_hosting. vm_compute. reflexivity.
Defined.




(** X22. [joinGame] for a game the store does not hold leaves the
    memory unchanged, logs the error and answers the requester with the
    [gameJoined] error. *)
Theorem joinGame_unknown_game (w : World) (socket gameId : string) (now : Z) :
  stored w gameId = None ->
  exists e,
    on_joinGame socket gameId now w =
      mkRun (Ret ()) w [ConsoleLog e; SocketEmit socket ev_gameJoined_error].
Proof.
  intros Hg. unfold stored in Hg. unfold_handlers.
  destruct (gameCollection w) as [db|] eqn:Hdb; cbn; [|eauto].
  rewrite Hg. cbn. eauto.
Qed.

(** Bob asks for a game that does not exist. *)
Lemma joinGame_unknown_game_witness :
  exists e,
    on_joinGame "s2" "g7" 10 w_hosting =
      mkRun (Ret ()) w_hosting [ConsoleLog e; SocketEmit "s2" ev_gameJoined_error].
Proof.
  apply (joinGame_unknown_game w_hosting "s2" "g7" 10).
  vm_compute. reflexivity.
Defined.



(** ** The lobby lists *)

Lemma NoDup_fmap_filter {A B : Type} (f : A -> B) (P : A -> Prop)
    `{forall x, Decision (P x)} (l : list A) :
  NoDup (f <$> l) -> NoDup (f <$> filter P l).
Proof.
  induction l as [|x l IH]; [done|].
  rewrite fmap_cons, NoDup_cons. intros [Hx Hl].
  rewrite filter_cons. destruct (decide (P x)); [|by apply IH].
  rewrite fmap_cons, NoDup_cons. split; [|by apply IH].
  intros Hin. apply Hx.
  apply list_elem_of_fmap in Hin as (y & -> & Hy).
  apply list_elem_of_filter in Hy as [_ Hy].
  by apply list_elem_of_fmap_2.
Qed.

Section Lobby.
Context (P : effect -> Prop).

(** [newGame] drops the host's joinable entries before it pushes the new
    one. *)
Lemma lobby_host_replaced {B : Type} (u : jsval) (e : LobbyEntry)
    (rest : M B) (R : B -> Prop) :
  le_host e = u ->
  triple lobby_ok P rest R ->
  triple lobby_ok P
    (_ ← modify (fun w =>
           set_joinableGames
             (filter (fun g => le_host g ≠ u) (joinableGames w)) w);
     _ ← modify (fun w => set_joinableGames (joinableGames w ++ [e]) w);
     rest) R.
Proof.
  intros He Hrest w [Hj Hw]. unfold mbind, M_bind, modify. cbn.
  match goal with |- context [rest ?w0] => specialize (Hrest w0) end.
  destruct Hrest as (HI & HP & HR).
  { split; [|done]. cbn. rewrite fmap_app. apply NoDup_app.
    split; [by apply NoDup_fmap_filter|]. split; [|apply NoDup_singleton].
    intros x Hx. cbn. rewrite He. intros ->%list_elem_of_singleton.
    apply list_elem_of_fmap in Hx as (g & Hg & Hin).
    apply list_elem_of_filter in Hin as [Hne _]. done. }
  destruct (rest _) as [[b|err] w2 o2]; cbn in *; done.
Qed.

(** [joinGame] pushes a watchable entry only when the game has none. *)
Lemma lobby_push_watchable {B : Type} (gameId : string) (c : bool)
    (e : LobbyEntry) (rest : M B) (R : B -> Prop) :
  le_gameId e = gameId ->
  triple lobby_ok P rest R ->
  triple lobby_ok P
    (w2 ← get;
     _ ← when (negb (existsb (fun g => String.eqb (le_gameId g) gameId)
                       (watchableGames w2)) && c)
           (modify (fun w => set_watchableGames (watchableGames w ++ [e]) w));
     rest) R.
Proof.
  intros He Hrest w [Hj Hw]. unfold mbind, M_bind, get, when, modify. cbn.
  destruct (negb _ && c) eqn:Hc; cbn.
  - match goal with |- context [rest ?w0] => specialize (Hrest w0) end.
    destruct Hrest as (HI & HP & HR).
    { split; [done|]. cbn. rewrite fmap_app. apply NoDup_app.
      split; [done|]. split; [|apply NoDup_singleton].
      intros x Hx. cbn. rewrite He. intros ->%list_elem_of_singleton.
      apply list_elem_of_fmap in Hx as (g & Hg & Hin).
      apply andb_true_iff in Hc as [Hc _]. apply negb_true_iff in Hc.
      assert (Hex : existsb (fun g => String.eqb (le_gameId g) gameId)
                      (watchableGames w) = true); [|congruence].
      apply existsb_exists. exists g. split; [by apply list_elem_of_In|].
      by apply String.eqb_eq. }
    destruct (rest _) as [[b|err] w2 o2]; cbn in *; done.
  - destruct (Hrest w (conj Hj Hw)) as (HI & HP & HR).
    destruct (rest w) as [[b|err] w2 o2]; cbn in *; done.
Qed.
End Lobby.

Ltac lobby_known :=
  idtac;
  lazymatch goal with
  | |- triple _ _ (mbind _ (modify _)) _ => apply lobby_host_replaced; [done|]
  | |- triple _ _ (mbind _ get) _ => apply lobby_push_watchable; [done|]
  end.

Ltac lobby_leaf :=
  unfold lobby_ok in *; cbn in *;
  try done;
  try (repeat constructor; done);
  try (repeat case_match; cbn; done);
  try (intuition (try apply NoDup_fmap_filter; done)).

Lemma step_keeps_lobby `{Rules} (i : input) :
  triple lobby_ok (fun _ => True) (step i) (fun _ => True).
Proof. destruct i; cbn [step]; triple_auto lobby_known lobby_leaf. Qed.

(** X24. Whatever inputs the process handles, lobby lists without
    duplicates stay so: never two joinable games of one host, never the
    same game twice as watchable. *)
Theorem lobby_has_no_duplicates `{Rules} (inputs : list input) (w : World) :
  lobby_ok w -> lobby_ok (final (run inputs w)).
Proof.
  revert w. induction inputs as [|i inputs IH]; intros w Hw; [done|].
  cbn. unfold mbind, M_bind.
  destruct (step_keeps_lobby i w Hw) as (Hw1 & _ & _).
  destruct (step i w) as [[[]|e] w1 o1]; cbn in *; [|done].
  specialize (IH w1 Hw1). destruct (run inputs w1). exact IH.
Qed.

(** Alice hosts a second game while the first is played. *)
Lemma lobby_has_no_duplicates_witness :
  lobby_ok (final (run (H := scripted)
                     (seated ++ [in_newGame "s1" "3+0" false "g2" 20]) boot)).
Proof.
  apply (lobby_has_no_duplicates (H := scripted)).
  split; apply NoDup_nil_2.
Defined.

(** ** Reported clocks *)

Lemma nonneg_js_max (t : jsnum) : nonneg (js_max 0 t).
Proof. destruct t; cbn; [lia|done]. Qed.

Lemma apply_update_keeps_result upd g :
  forallb keeps_result upd = true ->
  doc_ok g -> doc_ok (apply_update upd g).
Proof.
  revert g. induction upd as [|f upd IH]; intros g Hupd Hg; [done|].
  cbn in Hupd. apply andb_true_iff in Hupd as [Hf Hupd].
  cbn. unfold apply_update in IH. apply IH; [done|].
  destruct f; cbn in *; done.
Qed.

Section Results.
Context (P : effect -> Prop).

Lemma results_getGame gameId :
  triple results_ok P (getGame gameId)
    (fun g => forall game, g = Some game -> doc_ok game).
Proof.
  intros w HI. unfold getGame, get, throw. unfold mbind, M_bind, mret, M_ret. cbn.
  destruct (gameCollection w) as [db|] eqn:Hdb; cbn; [|done].
  split; [done|]. split; [constructor|].
  intros game Hg. apply (HI gameId). unfold stored. by rewrite Hdb.
Qed.

Lemma results_updateGame gameId upd :
  (forall g, doc_ok g -> doc_ok (apply_update upd g)) ->
  P (DbUpdate gameId upd) ->
  triple results_ok P (updateGame gameId upd)
    (fun g => forall game, g = Some game -> doc_ok game).
Proof.
  intros Hupd HP w HI.
  unfold updateGame, get, tell, modify, throw.
  unfold mbind, M_bind, mret, M_ret. cbn.
  destruct (gameCollection w) as [db|] eqn:Hdb; cbn; [|done].
  assert (Hdocs : forall id g, db !! id = Some g -> doc_ok g).
  { intros id g Hg. apply (HI id). unfold stored. by rewrite Hdb. }
  destruct (db !! gameId) as [g|] eqn:Hg; cbn.
  - split; [|split; [by repeat constructor|]].
    + intros id g'. unfold stored. cbn. rewrite lookup_insert.
      case_decide; [|by apply Hdocs]. intros [= <-]. eauto.
    + intros game [= <-]. eauto.
  - split; [done|]. split; [by repeat constructor|done].
Qed.

Lemma results_createGame insertedId g :
  doc_ok g ->
  P (DbInsert insertedId g) ->
  triple results_ok P (createGame insertedId g) (fun _ => True).
Proof.
  intros Hg HP. apply triple_leaf. intros w HI.
  unfold createGame, get, tell, modify, throw.
  unfold mbind, M_bind, mret, M_ret. cbn.
  destruct (gameCollection w) as [db|] eqn:Hdb; cbn; [|done].
  destruct (db !! insertedId) as [g'|] eqn:Hg'; cbn; [done|].
  split; [|by repeat constructor].
  intros id g2. unfold stored. cbn. rewrite lookup_insert.
  case_decide; [by intros [= <-]|].
  intros Hid. apply (HI id). unfold stored. by rewrite Hdb.
Qed.
End Results.

Ltac results_facts :=
  cbv beta in *;
  repeat match goal with
  | Hq : forall game, ?g = Some game -> _, Hd : ?g = Some ?a |- _ =>
      specialize (Hq a Hd)
  end.

Ltac results_leaf :=
  results_facts; cbn in *;
  try done;
  try (repeat constructor; cbn; try apply nonneg_js_max; done);
  try (unfold doc_ok in *; cbn in *;
       repeat constructor; cbn; intuition (try apply nonneg_js_max; done));
  try (intros ? [= <-]; done);
  try (repeat case_match; repeat constructor; done);
  try (unfold results_ok, stored in *; cbn in *; repeat case_match; cbn;
       intros ? ?; rewrite ?lookup_empty; done).

Ltac results_update :=
  apply results_updateGame;
  [ first
      [ intros ? ?; apply apply_update_keeps_result;
        [first [reflexivity | repeat case_match; reflexivity]|done]
      | intros ? _ _; cbn; split; apply nonneg_js_max ]
  | cbn; done ].

Ltac results_known :=
  idtac;
  lazymatch goal with
  | |- triple _ _ (getGame _) _ => apply results_getGame
  | |- triple _ _ (updateGame _ _) _ => results_update
  | |- triple _ _ (createGame _ _) _ =>
      apply results_createGame; [intros ?; cbn in *; done|cbn; done]
  end.

Lemma gameOver_reports_ok gameId player1 player2 resultData :
  triple results_ok timesync_ok (gameOver gameId player1 player2 resultData)
    (fun _ => True).
Proof.
  unfold gameOver, gameOver_body. triple_auto results_known results_leaf.
Qed.

Lemma take_seat_reports_ok gameId username game now :
  triple results_ok timesync_ok (take_seat gameId username game now) doc_ok.
Proof. unfold take_seat. triple_auto results_known results_leaf. Qed.

Ltac results_step :=
  idtac;
  lazymatch goal with
  | |- triple _ _ (gameOver _ _ _ _) _ => apply gameOver_reports_ok
  | |- triple _ _ (take_seat _ _ _ _) _ => apply take_seat_reports_ok
  | |- triple _ _ (mbind _ (if _ then take_seat _ _ _ _ else _)) _ =>
      eapply (triple_bind _ _ _ _ doc_ok); [ | intros ? ? ]
  | _ => results_known
  end.

Lemma step_reports_ok `{Rules} (i : input) :
  triple results_ok timesync_ok (step i) (fun _ => True).
Proof.
  destruct i; cbn [step];
    [ apply triple_leaf; intros w HI; unfold modify; cbn;
      split; [|constructor];
      destruct (gameCollection w) eqn:Hdb; [done|];
      intros id g; unfold stored; cbn; by rewrite lookup_empty
    | triple_auto results_step results_leaf .. ].
Qed.

(** X25. Whatever inputs the process handles, starting from a
    store whose finished documents record non-negative clocks, no
    [timesync] event ever reports a negative clock (although a clock entry
    reads [-1] once it has run out), and finished documents keep recording
    non-negative clocks. *)
Theorem reported_clocks_are_never_negative `{Rules} (inputs : list input)
    (w : World) :
  results_ok w ->
  Forall timesync_ok (output (run inputs w)) /\ results_ok (final (run inputs w)).
Proof.
  revert w. induction inputs as [|i inputs IH]; intros w Hw; [by split|].
  cbn. unfold mbind, M_bind.
  destruct (step_reports_ok i w Hw) as (Hw1 & Ho1 & _).
  destruct (step i w) as [[[]|e] w1 o1]; cbn in *; [|done].
  destruct (IH w1 Hw1) as [Ho2 Hw2]. destruct (run inputs w1). cbn in *.
  split; [|done]. by apply Forall_app.
Qed.

(** A time sync period, a resignation and a late watcher. *)
Lemma reported_clocks_are_never_negative_witness :
  Forall timesync_ok
    (output (run (H := scripted)
               (seated ++ [in_fire 500 2; in_resign "s2";
                           in_joinGame "s3" "g1" 600]) boot)).
Proof.
  apply (reported_clocks_are_never_negative (H := scripted)).
  intros gameId game Hdoc. vm_compute in Hdoc. discriminate Hdoc.
Defined.
